(** * The quiz session of [client/src/Page/main/Quiz.tsx]

    A shallow embedding of the [Quiz] component: its [QuizState], the
    handlers [fetchQuestions], [recoverQuizState], [handleAnswer],
    [nextQuestion], [handleComplete], and the two effects that resume a
    session from [localStorage] and persist it.

    Numbers are modelled as [Z] (every number the component produces is an
    integer), [undefined] as [None], and a thrown exception as [Throw]. *)

From Stdlib Require Import ZArith QArith.
From stdpp Require Import gmap strings list.

Local Open Scope Z_scope.

(** ** Data model *)

(** [difficulty: "easy" | "medium" | "hard"] of the [Question] interface; the
    client's [Difficulty] is the same union. *)
Inductive Difficulty := easy | medium | hard.

#[global] Instance Difficulty_eq_dec : EqDecision Difficulty.
Proof. solve_decision. Defined.

(** [interface Question]. *)
Record Question := {
  _id : option string;
  q_difficulty : Difficulty;
  text : string;
  options : list string;
  correctAnswer : Z;
  explanation : string;
}.

(** [Question & { userAnswer?: number }]. *)
Record AnsweredQuestion := {
  base : Question;
  userAnswer : option Z;
}.

(** [interface QuizState]. *)
Record QuizState := {
  questions : list AnsweredQuestion;
  currentQuestionIndex : Z;
  score : Z;
  difficulty : Difficulty;
}.

(** [a === b] for an optional number [a] and a number [b]. *)
Definition strictEq (a : option Z) (b : Z) : bool :=
  match a with
  | Some x => x =? b
  | None => false
  end.

(** [a !== undefined]. *)
Definition defined {A} (a : option A) : bool :=
  match a with
  | Some _ => true
  | None => false
  end.

(** [arr[i]]: [undefined] outside the array. *)
Definition at_index {A} (arr : list A) (i : Z) : option A :=
  if 0 <=? i then arr !! Z.to_nat i else None.

(** [arr.length]. *)
Definition len {A} (arr : list A) : Z := Z.of_nat (length arr).

(** ** [recoverQuizState] (lines 50-62) *)

Definition recoveredScore (qs : list AnsweredQuestion) : Z :=
  fold_left
    (fun score question =>
       if strictEq (userAnswer question) (correctAnswer (base question))
       then score + 1
       else score)
    qs 0.

Definition recoverQuizState (savedState : QuizState) : QuizState :=
  {| questions := questions savedState;
     currentQuestionIndex := currentQuestionIndex savedState;
     score := recoveredScore (questions savedState);
     difficulty := difficulty savedState |}.

(** ** The component, its collaborators and its effects *)

Inductive Exn := TypeError | SyntaxError.

Inductive result (A : Type) :=
  | Ok (a : A)
  | Throw (e : Exn).
Arguments Ok {A} a.
Arguments Throw {A} e.

(** What the component writes to the console. *)
Inductive LogEntry :=
  | FetchNotOk          (* console.error, line 43 *)
  | FetchThrew          (* console.error, line 46 *)
  | AlreadyAnswered     (* console.log, line 87 *)
  | ScoreUpdateFailed.  (* console.error, line 151 *)

(** A document of the [users] collection. A field that is missing reads as
    [0] through [|| 0] and is incremented from [0], so it is kept as [0].
    [averageScore] is the exact quotient; the rounding of the division to a
    double is not modelled. *)
Record UserDoc := {
  totalGames : Z;
  totalScore : Z;
  averageScore : Q;
}.

(** The [state] handed to [navigate("/complete", ...)]. *)
Record ResultPayload := {
  payload_score : Z;
  payload_total : Z;
}.

(** The [useState] cells of the component, followed by the outside world:
    the [localStorage] slot under [QUIZ_STATE_KEY] (the text is kept as the
    state it serialises), the console, the [users] collection and the
    navigations made so far (latest first). *)
Record App := {
  quizState : option QuizState;
  showModal : bool;
  isCorrect : bool;
  showExplanation : bool;
  localStorage : option QuizState;
  console : list LogEntry;
  users : gmap string UserDoc;
  navigated : list ResultPayload;
}.

Definition initialApp (saved : option QuizState) (us : gmap string UserDoc) : App :=
  {| quizState := None; showModal := false; isCorrect := false;
     showExplanation := false; localStorage := saved; console := [];
     users := us; navigated := [] |}.

(** Handlers run in a state monad over [App]; a thrown exception keeps the
    writes made before it. *)
Definition M (A : Type) : Type := App -> result A * App.

Definition ret {A} (x : A) : M A := fun a => (Ok x, a).

Definition bind {A B} (m : M A) (k : A -> M B) : M B :=
  fun a =>
    match m a with
    | (Ok x, a') => k x a'
    | (Throw e, a') => (Throw e, a')
    end.

Definition throw {A} (e : Exn) : M A := fun a => (Throw e, a).

Definition gets {A} (f : App -> A) : M A := fun a => (Ok (f a), a).

Definition modify (f : App -> App) : M unit := fun a => (Ok tt, f a).

Notation "'let*' x ':=' m 'in' k" := (bind m (fun x => k))
  (at level 10, x name, m at level 100, k at level 200).
Notation "m >> k" := (bind m (fun _ => k))
  (at level 61, left associativity).

Definition putQuizState (s : QuizState) : M unit :=
  modify (fun a =>
    {| quizState := Some s; showModal := showModal a; isCorrect := isCorrect a;
       showExplanation := showExplanation a; localStorage := localStorage a;
       console := console a; users := users a; navigated := navigated a |}).

Definition setShowModal (b : bool) : M unit :=
  modify (fun a =>
    {| quizState := quizState a; showModal := b; isCorrect := isCorrect a;
       showExplanation := showExplanation a; localStorage := localStorage a;
       console := console a; users := users a; navigated := navigated a |}).

Definition setIsCorrect (b : bool) : M unit :=
  modify (fun a =>
    {| quizState := quizState a; showModal := showModal a; isCorrect := b;
       showExplanation := showExplanation a; localStorage := localStorage a;
       console := console a; users := users a; navigated := navigated a |}).

Definition setShowExplanation (b : bool) : M unit :=
  modify (fun a =>
    {| quizState := quizState a; showModal := showModal a; isCorrect := isCorrect a;
       showExplanation := b; localStorage := localStorage a;
       console := console a; users := users a; navigated := navigated a |}).

Definition writeStorage (v : option QuizState) : M unit :=
  modify (fun a =>
    {| quizState := quizState a; showModal := showModal a; isCorrect := isCorrect a;
       showExplanation := showExplanation a; localStorage := v;
       console := console a; users := users a; navigated := navigated a |}).

(** [localStorage.setItem(QUIZ_STATE_KEY, JSON.stringify(s))]. *)
Definition localStorage_setItem (s : QuizState) : M unit := writeStorage (Some s).

(** [localStorage.removeItem(QUIZ_STATE_KEY)]. *)
Definition localStorage_removeItem : M unit := writeStorage None.

Definition console_log (e : LogEntry) : M unit :=
  modify (fun a =>
    {| quizState := quizState a; showModal := showModal a; isCorrect := isCorrect a;
       showExplanation := showExplanation a; localStorage := localStorage a;
       console := e :: console a; users := users a; navigated := navigated a |}).

Definition putUsers (us : gmap string UserDoc) : M unit :=
  modify (fun a =>
    {| quizState := quizState a; showModal := showModal a; isCorrect := isCorrect a;
       showExplanation := showExplanation a; localStorage := localStorage a;
       console := console a; users := us; navigated := navigated a |}).

Definition navigate (p : ResultPayload) : M unit :=
  modify (fun a =>
    {| quizState := quizState a; showModal := showModal a; isCorrect := isCorrect a;
       showExplanation := showExplanation a; localStorage := localStorage a;
       console := console a; users := users a; navigated := p :: navigated a |}).

(** The persisting effect (lines 75-79). *)
Definition persistEffect : M unit :=
  let* quizState := gets quizState in
  match quizState with
  | Some s => localStorage_setItem s
  | None => ret tt
  end.

(** [setQuizState] with a new object: the component renders again and the
    effect that depends on [quizState] runs. An updater that returns
    [prevState] itself installs nothing and is modelled by no call. *)
Definition setQuizState (s : QuizState) : M unit :=
  putQuizState s >> persistEffect.

(** ** [fetchQuestions] (lines 26-48) *)

(** What the request to [/api/questions/${difficulty}] comes to. *)
Inductive Response :=
  | ResponseOk (body : list Question)  (* response.ok, body parsed *)
  | ResponseNotOk                      (* !response.ok *)
  | FetchRejected.                     (* fetch or response.json() rejects *)

Definition unanswered (q : Question) : AnsweredQuestion :=
  {| base := q; userAnswer := None |}.

Definition fetchQuestions (difficulty : Difficulty) (response : Response) : M unit :=
  match response with
  | ResponseOk questions =>
      setQuizState {| questions := unanswered <$> questions;
                      currentQuestionIndex := 0;
                      score := 0;
                      difficulty := difficulty |}
  | ResponseNotOk => console_log FetchNotOk
  | FetchRejected => console_log FetchThrew
  end.

(** ** The resume-or-fetch effect (lines 64-73), on a slot that holds a
    serialised [QuizState] *)

Definition resumeOrFetch (requested : Difficulty) (response : Response) : M unit :=
  let* savedState := gets localStorage in
  match savedState with
  | Some parsedState =>
      if decide (difficulty parsedState = requested)
      then setQuizState (recoverQuizState parsedState)
      else localStorage_removeItem >> fetchQuestions requested response
  | None => localStorage_removeItem >> fetchQuestions requested response
  end.

(** ** [handleAnswer] (lines 81-107) *)

(** The updater of lines 94-106, for a [prevState] that is not null. *)
Definition answerUpdater (currentQuestion : AnsweredQuestion) (selectedAnswer : Z)
    (correct : bool) (prevState : QuizState) : QuizState :=
  let newQuestions :=
    <[Z.to_nat (currentQuestionIndex prevState) :=
        {| base := base currentQuestion; userAnswer := Some selectedAnswer |}]>
      (questions prevState) in
  {| questions := newQuestions;
     currentQuestionIndex := currentQuestionIndex prevState;
     score := if correct then score prevState + 1 else score prevState;
     difficulty := difficulty prevState |}.

Definition handleAnswer (selectedAnswer : Z) : M unit :=
  let* quizState0 := gets quizState in
  match quizState0 with
  | None => ret tt
  | Some quizState0 =>
      match at_index (questions quizState0) (currentQuestionIndex quizState0) with
      | None => throw TypeError   (* currentQuestion.userAnswer on undefined *)
      | Some currentQuestion =>
          if defined (userAnswer currentQuestion)
          then console_log AlreadyAnswered
          else
            let correct := selectedAnswer =? correctAnswer (base currentQuestion) in
            setIsCorrect correct >>
            setShowModal true >>
            (let* prevState := gets quizState in
             match prevState with
             | None => ret tt
             | Some prevState =>
                 setQuizState
                   (answerUpdater currentQuestion selectedAnswer correct prevState)
             end)
      end
  end.

(** ** [handleComplete] (lines 134-158) *)

(** [auth.currentUser], and whether [getDoc] and [updateDoc] reject. *)
Record Firebase := {
  currentUser : option string;
  getDocRejects : bool;
  updateDocRejects : bool;
}.

(** [userData?.field || 0]. *)
Definition orZero (field : UserDoc -> Z) (userData : option UserDoc) : Z :=
  match userData with
  | Some d => field d
  | None => 0
  end.

(** The [try] block; [updateDoc] also rejects when the document does not
    exist. *)
Definition updateProfile (fb : Firebase) (uid : string) (sessionScore : Z) : M unit :=
  if getDocRejects fb then console_log ScoreUpdateFailed
  else
    let* userData := gets (fun a => users a !! uid) in
    let newTotalGames := orZero totalGames userData + 1 in
    let newTotalScore := orZero totalScore userData + sessionScore in
    let newAverageScore := (inject_Z newTotalScore / inject_Z newTotalGames)%Q in
    match userData with
    | Some d =>
        if updateDocRejects fb then console_log ScoreUpdateFailed
        else
          let* us := gets users in
          putUsers (<[uid := {| totalGames := totalGames d + 1;
                                totalScore := totalScore d + sessionScore;
                                averageScore := newAverageScore |}]> us)
    | None => console_log ScoreUpdateFailed
    end.

Definition handleComplete (fb : Firebase) : M unit :=
  let* quizState := gets quizState in
  match quizState with
  | None => ret tt
  | Some quizState =>
      match currentUser fb with
      | Some uid => updateProfile fb uid (score quizState)
      | None => ret tt
      end >>
      localStorage_removeItem >>
      navigate {| payload_score := score quizState;
                  payload_total := len (questions quizState) |}
  end.

(** ** [nextQuestion] (lines 109-124) *)

Definition nextQuestion (fb : Firebase) : M unit :=
  setShowModal false >>
  setShowExplanation false >>
  (let* prevState := gets quizState in
   match prevState with
   | None => ret tt
   | Some prevState =>
       let nextIndex := currentQuestionIndex prevState + 1 in
       if len (questions prevState) <=? nextIndex
       then handleComplete fb
       else setQuizState
              {| questions := questions prevState;
                 currentQuestionIndex := nextIndex;
                 score := score prevState;
                 difficulty := difficulty prevState |}
   end).

(** [identificationButton] (lines 126-132). *)
Definition identificationButton : M unit :=
  let* shown := gets showExplanation in
  if shown then setShowExplanation false else setShowExplanation true.

(** ** What is rendered (lines 160-220) *)

Inductive View :=
  | LoadingOrError
  | QuizView (number : Z) (outOf : Z) (currentQuestion : option AnsweredQuestion).

Definition render (a : App) : View :=
  match quizState a with
  | None => LoadingOrError
  | Some s =>
      QuizView (currentQuestionIndex s + 1) (len (questions s))
        (at_index (questions s) (currentQuestionIndex s))
  end.

(** ** Runs of the component *)

Inductive Event :=
  | Start (requested : Difficulty) (response : Response)
  | ClickOption (index : Z)
  | NextQuestion (fb : Firebase)
  | ResultButton (fb : Firebase)
  | ExplanationButton.

Definition dispatch (e : Event) : M unit :=
  match e with
  | Start requested response => resumeOrFetch requested response
  | ClickOption index => handleAnswer index
  | NextQuestion fb => nextQuestion fb
  | ResultButton fb => handleComplete fb
  | ExplanationButton => identificationButton
  end.

(** The events in order; an exception ends the run. *)
Fixpoint run (es : list Event) : M unit :=
  match es with
  | [] => ret tt
  | e :: es' => dispatch e >> run es'
  end.

(** ** The resume path on what [JSON.parse] really returns

    [JSON.parse(savedState)] is typed [any]; nothing checks that it is a
    [QuizState] before [recoverQuizState] reads it. This module follows lines
    50-73 on an arbitrary parsed value. *)
Module JS.

(** A value built by [JSON.parse]; [undefined] is [None] of
    [option value]. An object lists its own properties in order, each key
    once. *)
#[local] Set Warnings "-register-all".
Inductive value :=
  | Null
  | Bool (b : bool)
  | Num (n : Z)
  | Str (s : string)
  | Arr (elems : list value)
  | Obj (props : list (string * value)).

(** The content of the slot: text. *)
Inductive Stored :=
  | EmptyText            (* the empty string, which is falsy *)
  | NotJSON              (* text that JSON.parse rejects *)
  | Json (v : value).    (* text that parses to v *)

Fixpoint lookupProp (key : string) (props : list (string * value)) : option value :=
  match props with
  | [] => None
  | (k, v) :: rest => if String.eqb k key then Some v else lookupProp key rest
  end.

(** [v.key] for the keys read here ([difficulty], [questions],
    [userAnswer], [correctAnswer]), none of which an array, a string, a
    number or a boolean has. *)
Definition get (v : value) (key : string) : result (option value) :=
  match v with
  | Null => Throw TypeError
  | Obj props => Ok (lookupProp key props)
  | _ => Ok None
  end.

(** [a === b]; two arrays or objects of a parsed text are never the same
    object. *)
Definition strictEquals (a b : option value) : bool :=
  match a, b with
  | None, None => true
  | Some Null, Some Null => true
  | Some (Bool x), Some (Bool y) => Bool.eqb x y
  | Some (Num x), Some (Num y) => x =? y
  | Some (Str x), Some (Str y) => String.eqb x y
  | _, _ => false
  end.

(** The callback of [reduce] (lines 51-56). *)
Definition countQuestion (score : Z) (question : value) : result Z :=
  match get question "userAnswer", get question "correctAnswer" with
  | Ok userAnswer, Ok correctAnswer =>
      Ok (if strictEquals userAnswer correctAnswer then score + 1 else score)
  | Throw e, _ => Throw e
  | _, Throw e => Throw e
  end.

(** [elems.reduce(callback, score)]. *)
Fixpoint reduce (elems : list value) (score : Z) : result Z :=
  match elems with
  | [] => Ok score
  | question :: rest =>
      match countQuestion score question with
      | Ok score' => reduce rest score'
      | Throw e => Throw e
      end
  end.

(** [{ ...props, key: v }]: an own key keeps its place, a new one goes
    last. *)
Fixpoint setProp (key : string) (v : value) (props : list (string * value))
  : list (string * value) :=
  match props with
  | [] => [(key, v)]
  | (k, old) :: rest =>
      if String.eqb k key then (k, v) :: rest
      else (k, old) :: setProp key v rest
  end.

(** [recoverQuizState] (lines 50-62): [.reduce] exists on arrays only. *)
Definition recoverQuizState (savedState : value) : result value :=
  match savedState with
  | Obj props =>
      match lookupProp "questions" props with
      | Some (Arr elems) =>
          match reduce elems 0 with
          | Ok recoveredScore => Ok (Obj (setProp "score" (Num recoveredScore) props))
          | Throw e => Throw e
          end
      | _ => Throw TypeError
      end
  | _ => Throw TypeError
  end.

(** What the effect of lines 64-73 does. *)
Inductive Decision :=
  | Resume (recovered : value)   (* setQuizState(recoverQuizState(parsedState)) *)
  | FetchFresh.                  (* removeItem; fetchQuestions() *)

Definition tierName (d : Difficulty) : string :=
  match d with
  | easy => "easy"
  | medium => "medium"
  | hard => "hard"
  end.

Definition resumeOrFetch (savedState : option Stored) (requested : Difficulty)
  : result Decision :=
  match savedState with
  | None => Ok FetchFresh
  | Some EmptyText => Ok FetchFresh
  | Some NotJSON => Throw SyntaxError
  | Some (Json parsed) =>
      match get parsed "difficulty" with
      | Throw e => Throw e
      | Ok d =>
          if strictEquals d (Some (Str (tierName requested)))
          then match recoverQuizState parsed with
               | Ok recovered => Ok (Resume recovered)
               | Throw e => Throw e
               end
          else Ok FetchFresh
      end
  end.

(** [JSON.parse(JSON.stringify(s))] for a state of the declared type; a
    property that is [undefined] is left out. *)
Definition optProp (key : string) (v : option value) : list (string * value) :=
  match v with
  | Some x => [(key, x)]
  | None => []
  end.

Definition encodeQuestion (q : AnsweredQuestion) : value :=
  Obj (optProp "_id" (Str <$> _id (base q)) ++
       [("difficulty", Str (tierName (q_difficulty (base q))));
        ("text", Str (text (base q)));
        ("options", Arr (Str <$> options (base q)));
        ("correctAnswer", Num (correctAnswer (base q)));
        ("explanation", Str (explanation (base q)))] ++
       optProp "userAnswer" (Num <$> userAnswer q)).

Definition encode (s : QuizState) : value :=
  Obj [("questions", Arr (encodeQuestion <$> questions s));
       ("currentQuestionIndex", Num (currentQuestionIndex s));
       ("score", Num (score s));
       ("difficulty", Str (tierName (difficulty s)))].

End JS.

(** ** The properties, in the words of the specification *)

(** [count(q in questions where q.userAnswer == q.correctAnswer)], with
    [userAnswer] defined. *)
Definition correctCount (qs : list AnsweredQuestion) : Z :=
  len (filter (fun q => userAnswer q = Some (correctAnswer (base q))) qs).

(** For every [i < currentIndex], [questions[i].userAnswer] is defined. *)
Definition noneSkipped (s : QuizState) : Prop :=
  forall i, 0 <= i < currentQuestionIndex s ->
    exists q, at_index (questions s) i = Some q /\ is_Some (userAnswer q).

(** The precondition of advancing: the current question is answered. *)
Definition currentAnswered (a : App) : bool :=
  match quizState a with
  | None => true
  | Some s =>
      match at_index (questions s) (currentQuestionIndex s) with
      | Some q => defined (userAnswer q)
      | None => false
      end
  end.

(** Every [NextQuestion] of the run is made with the current question
    answered. *)
Fixpoint advancesWhenAnswered (es : list Event) (a : App) : bool :=
  match es with
  | [] => true
  | e :: es' =>
      match e with
      | NextQuestion _ => currentAnswered a
      | _ => true
      end
      && match dispatch e a with
         | (Ok _, a') => advancesWhenAnswered es' a'
         | (Throw _, _) => true
         end
  end.

(** The score is the count of correct answers. *)
Definition scoreIsCount (a : App) : Prop :=
  forall s, quizState a = Some s -> score s = correctCount (questions s).

(** No question is skipped, in the session and in the stored snapshot. *)
Definition noneSkippedApp (a : App) : Prop :=
  (forall s, quizState a = Some s -> noneSkipped s) /\
  (forall s, localStorage a = Some s -> noneSkipped s).

Ltac unfold_M :=
  unfold setQuizState, persistEffect, putQuizState, localStorage_setItem,
    localStorage_removeItem, writeStorage, setShowModal, setIsCorrect,
    setShowExplanation, console_log, putUsers, navigate,
    bind, gets, modify, ret, throw in *.

(** A snapshot with another value in its [score] field. *)
Definition withScore (stale : Z) (s : QuizState) : QuizState :=
  {| questions := questions s;
     currentQuestionIndex := currentQuestionIndex s;
     score := stale;
     difficulty := difficulty s |}.

(** The state [fetchQuestions] constructs from a body. *)
Definition freshState (requested : Difficulty) (body : list Question) : QuizState :=
  {| questions := unanswered <$> body;
     currentQuestionIndex := 0;
     score := 0;
     difficulty := requested |}.

(** ** Sample sessions *)

Definition sampleQuestion (answer : Z) : Question :=
  {| _id := None; q_difficulty := medium; text := "Q";
     options := ["a"; "b"; "c"]; correctAnswer := answer;
     explanation := "because" |}.

Definition sampleBody : list Question := [sampleQuestion 0; sampleQuestion 2].

Definition signedIn : Firebase :=
  {| currentUser := Some "u1"; getDocRejects := false; updateDocRejects := false |}.

Definition sampleUsers : gmap string UserDoc :=
  {[ "u1" := {| totalGames := 0; totalScore := 0; averageScore := 0%Q |} ]}.

(** Answers [correct, wrong, undefined] and a stored score of 7. *)
Definition staleSnapshot : QuizState :=
  {| questions := [ {| base := sampleQuestion 0; userAnswer := Some 0 |};
                    {| base := sampleQuestion 2; userAnswer := Some 1 |};
                    {| base := sampleQuestion 1; userAnswer := None |} ];
     currentQuestionIndex := 2;
     score := 7;
     difficulty := medium |}.

(** Two questions: the first answered correctly, the second wrongly. *)
Definition twoQuestionRun : list Event :=
  [Start medium (ResponseOk sampleBody); ClickOption 0; NextQuestion signedIn;
   ClickOption 1; NextQuestion signedIn].

(** One question, answered correctly, not yet advanced. *)
Definition lastQuestionAnswered : App :=
  (run [Start medium (ResponseOk [sampleQuestion 0]); ClickOption 0]
     (initialApp None sampleUsers)).2.

(** A stored text that parses, carries the requested tier and lacks
    [currentQuestionIndex] and [score]. *)
Definition truncatedSnapshot : JS.value :=
  JS.Obj [("difficulty", JS.Str "easy"); ("questions", JS.Arr [])].

(** ** The option buttons (lines 162-191) *)

Inductive Color := lightgreen | lightcoral | white.

(** [isLastQuestion] (lines 163-164). *)
Definition isLastQuestion (s : QuizState) : bool :=
  currentQuestionIndex s =? len (questions s) - 1.

(** [disabled] of every option button (line 176). *)
Definition optionDisabled (currentQuestion : AnsweredQuestion) : bool :=
  defined (userAnswer currentQuestion).

(** [backgroundColor] of the button of option [index] (lines 178-186). *)
Definition backgroundColor (currentQuestion : AnsweredQuestion) (index : Z) : Color :=
  if strictEq (userAnswer currentQuestion) index
  then if index =? correctAnswer (base currentQuestion)
       then lightgreen
       else lightcoral
  else if defined (userAnswer currentQuestion)
          && (index =? correctAnswer (base currentQuestion))
       then lightgreen
       else white.

(** ** Relations between states of one session *)

(** [s'] is [s] further along: the same questions in the same order, every
    answered question as it was, the same tier, index and score not
    lower. *)
Definition progressOf (s s' : QuizState) : Prop :=
  base <$> questions s' = base <$> questions s /\
  (forall i q, questions s !! i = Some q -> is_Some (userAnswer q) ->
     questions s' !! i = Some q) /\
  difficulty s' = difficulty s /\
  currentQuestionIndex s <= currentQuestionIndex s' /\
  score s <= score s'.

(** The current index points at a question. *)
Definition indexInRange (s : QuizState) : Prop :=
  0 <= currentQuestionIndex s < len (questions s).

Definition indexInRangeApp (a : App) : Prop :=
  (forall s, quizState a = Some s -> indexInRange s) /\
  (forall s, localStorage a = Some s -> indexInRange s).

(** The slot is empty or holds the session as it is. *)
Definition slotInSync (a : App) : Prop :=
  localStorage a = None \/ localStorage a = quizState a.

(** Every result handed off has a score between 0 and its total. *)
Definition payloadsBounded (a : App) : Prop :=
  Forall (fun p => 0 <= payload_score p <= payload_total p) (navigated a).

Definition isStart (e : Event) : bool :=
  match e with
  | Start _ _ => true
  | _ => false
  end.

(** No event of the run is a start: the run stays within one session. *)
Definition withinSession (es : list Event) : bool :=
  forallb (fun e => negb (isStart e)) es.

(** Every successful response of the run carries at least one question. *)
Definition bodiesNonEmpty (es : list Event) : bool :=
  forallb (fun e =>
             match e with
             | Start _ (ResponseOk []) => false
             | _ => true
             end) es.

(** A parsed snapshot of two entries that are not questions. *)
Definition numbersSnapshot : JS.value :=
  JS.Obj [("difficulty", JS.Str "easy");
          ("questions", JS.Arr [JS.Num 1; JS.Num 2]);
          ("score", JS.Num 9)].

(** The document [updateDoc] leaves behind (lines 145-149): both totals
    incremented, the average as computed from the document read. *)
Definition updatedDoc (d : UserDoc) (sessionScore : Z) : UserDoc :=
  {| totalGames := totalGames d + 1;
     totalScore := totalScore d + sessionScore;
     averageScore := (inject_Z (totalScore d + sessionScore)
                      / inject_Z (totalGames d + 1))%Q |}.

(** The button the first modal offers besides the explanation toggle
    (lines 207-210). *)
Definition modalPrimary (s : QuizState) (fb : Firebase) : Event :=
  if isLastQuestion s then ResultButton fb else NextQuestion fb.

(** ** Completion as the asynchronous function it is (lines 134-158)

    [handleComplete] is [async]: with a user signed in it suspends at
    [await getDoc] and at [await updateDoc], and the component stays
    mounted and its buttons live until the call reaches [navigate]. The
    route table is not part of the source; [navigate("/complete")] is taken
    to leave the route of [Quiz], after which the component is unmounted
    and a call of one of its state setters does nothing. *)

(** A call of [handleComplete] suspended at an [await], with the
    [quizState] its closure holds. *)
Inductive Task :=
  | AwaitingGetDoc (uid : string) (closure : QuizState)
  | AwaitingUpdateDoc (uid : string) (closure : QuizState) (newAverageScore : Q).

(** The component with the calls in flight, oldest first. *)
Record Live := {
  app : App;
  mounted : bool;
  pending : list Task;
}.

Definition withApp (a : App) (l : Live) : Live :=
  {| app := a; mounted := mounted l; pending := pending l |}.

(** Lines 154-157, reached on every path out of the [try]. *)
Definition leaveQuiz (closure : QuizState) (l : Live) : Live :=
  {| app := ((localStorage_removeItem >>
              navigate {| payload_score := score closure;
                          payload_total := len (questions closure) |}) (app l)).2;
     mounted := false;
     pending := pending l |}.

(** The [catch] block (lines 150-152). *)
Definition catchUpdateError (l : Live) : Live :=
  withApp (console_log ScoreUpdateFailed (app l)).2 l.

(** [handleComplete] up to its first [await] (lines 135-140). *)
Definition beginComplete (user : option string) (l : Live) : Live :=
  match quizState (app l) with
  | None => l
  | Some closure =>
      match user with
      | Some uid =>
          {| app := app l; mounted := mounted l;
             pending := pending l ++ [AwaitingGetDoc uid closure] |}
      | None => leaveQuiz closure l
      end
  end.

(** A suspended call resumes when its promise settles: the state it leaves
    and, when it suspends again, the task it becomes. [getDoc] reads and
    [updateDoc] writes the collection as it is when the promise settles;
    [increment] adds to the stored totals, [averageScore] is the value
    computed from the document read (lines 141-149). *)
Definition resume (t : Task) (resolved : bool) (l : Live) : Live * option Task :=
  match t with
  | AwaitingGetDoc uid closure =>
      if resolved
      then
        let userData := users (app l) !! uid in
        let newTotalGames := orZero totalGames userData + 1 in
        let newTotalScore := orZero totalScore userData + score closure in
        let newAverageScore := (inject_Z newTotalScore / inject_Z newTotalGames)%Q in
        (l, Some (AwaitingUpdateDoc uid closure newAverageScore))
      else (leaveQuiz closure (catchUpdateError l), None)
  | AwaitingUpdateDoc uid closure newAverageScore =>
      match (if resolved then users (app l) !! uid else None) with
      | Some d =>
          (leaveQuiz closure
             (withApp
                (putUsers
                   (<[uid := {| totalGames := totalGames d + 1;
                                totalScore := totalScore d + score closure;
                                averageScore := newAverageScore |}]>
                      (users (app l)))
                   (app l)).2 l),
           None)
      | None => (leaveQuiz closure (catchUpdateError l), None)
      end
  end.

(** The promise of the [i]-th call in flight settles. *)
Definition settle (i : nat) (resolved : bool) (l : Live) : Live :=
  match pending l !! i with
  | None => l
  | Some t =>
      match resume t resolved l with
      | (l', Some t') =>
          {| app := app l'; mounted := mounted l'; pending := <[i := t']> (pending l) |}
      | (l', None) =>
          {| app := app l'; mounted := mounted l'; pending := delete i (pending l) |}
      end
  end.

(** [nextQuestion] (lines 109-124) on the mounted component; on an
    unmounted one the setters, and with them the updater, do nothing. *)
Definition advance (user : option string) (l : Live) : Live :=
  if mounted l
  then
    let closed := ((setShowModal false >> setShowExplanation false) (app l)).2 in
    match quizState closed with
    | None => withApp closed l
    | Some prevState =>
        let nextIndex := currentQuestionIndex prevState + 1 in
        if len (questions prevState) <=? nextIndex
        then beginComplete user (withApp closed l)
        else withApp
               (setQuizState
                  {| questions := questions prevState;
                     currentQuestionIndex := nextIndex;
                     score := score prevState;
                     difficulty := difficulty prevState |} closed).2 l
    end
  else l.

Inductive LiveEvent :=
  | Advance                               (* nextQuestion is invoked *)
  | Settle (i : nat) (resolved : bool).   (* a promise in flight settles *)

Definition liveStep (user : option string) (e : LiveEvent) (l : Live) : Live :=
  match e with
  | Advance => advance user l
  | Settle i resolved => settle i resolved l
  end.

Fixpoint runLive (user : option string) (es : list LiveEvent) (l : Live) : Live :=
  match es with
  | [] => l
  | e :: es' => runLive user es' (liveStep user e l)
  end.

(** The promises of one call settled at once, as [fb] has them. *)
Definition settledAtOnce (fb : Firebase) : list LiveEvent :=
  match currentUser fb with
  | None => []
  | Some _ =>
      if getDocRejects fb then [Settle 0 false]
      else [Settle 0 true; Settle 0 (negb (updateDocRejects fb))]
  end.

(** The mounted component with no call in flight. *)
Definition mountedOn (a : App) : Live :=
  {| app := a; mounted := true; pending := [] |}.

(** ** Counting correct answers *)

Lemma strictEq_true (a : option Z) (b : Z) : strictEq a b = true <-> a = Some b.
Proof.
  destruct a as [x|]; simpl.
  - rewrite Z.eqb_eq. split; [intros ->; reflexivity | intros [= ->]; reflexivity].
  - split; discriminate.
Qed.

Lemma correctCount_nil : correctCount [] = 0.
Proof. reflexivity. Qed.

Lemma correctCount_cons (q : AnsweredQuestion) (qs : list AnsweredQuestion) :
  correctCount (q :: qs) =
  (if strictEq (userAnswer q) (correctAnswer (base q)) then 1 else 0) + correctCount qs.
Proof.
  unfold correctCount, len. rewrite filter_cons.
  destruct (strictEq (userAnswer q) (correctAnswer (base q))) eqn:E.
  - apply strictEq_true in E. rewrite decide_True by exact E. simpl length. lia.
  - rewrite decide_False; [lia |].
    intros H. apply strictEq_true in H. congruence.
Qed.

Lemma correctCount_app (l1 l2 : list AnsweredQuestion) :
  correctCount (l1 ++ l2) = correctCount l1 + correctCount l2.
Proof.
  induction l1 as [|q l1 IH]; [rewrite correctCount_nil; reflexivity |].
  rewrite <- app_comm_cons, !correctCount_cons, IH. lia.
Qed.

Lemma reduce_from (qs : list AnsweredQuestion) (acc : Z) :
  fold_left
    (fun score question =>
       if strictEq (userAnswer question) (correctAnswer (base question))
       then score + 1 else score) qs acc
  = acc + correctCount qs.
Proof.
  revert acc. induction qs as [|q qs IH]; intros acc; simpl.
  - rewrite correctCount_nil. lia.
  - rewrite IH, correctCount_cons.
    destruct (strictEq (userAnswer q) (correctAnswer (base q))); lia.
Qed.

Lemma recoveredScore_correctCount (qs : list AnsweredQuestion) :
  recoveredScore qs = correctCount qs.
Proof. unfold recoveredScore. rewrite reduce_from. lia. Qed.

(** Answering an unanswered question adds one to the count exactly when the
    selected option is the correct one. *)
Lemma correctCount_answer (qs : list AnsweredQuestion) (i : nat)
    (q : AnsweredQuestion) (selected : Z) :
  qs !! i = Some q ->
  userAnswer q = None ->
  correctCount (<[i := {| base := base q; userAnswer := Some selected |}]> qs)
  = correctCount qs + (if selected =? correctAnswer (base q) then 1 else 0).
Proof.
  intros Hq Hnone.
  rewrite insert_take_drop by (eapply lookup_lt_Some; exact Hq).
  rewrite <- (take_drop_middle qs i q Hq) at 3.
  rewrite !correctCount_app, !correctCount_cons. simpl.
  rewrite Hnone. simpl. lia.
Qed.

(** ** What each handler leaves alone *)

Lemma updateProfile_frame (fb : Firebase) (uid : string) (sessionScore : Z) (a : App) :
  (updateProfile fb uid sessionScore a).1 = Ok tt /\
  quizState (updateProfile fb uid sessionScore a).2 = quizState a /\
  localStorage (updateProfile fb uid sessionScore a).2 = localStorage a /\
  navigated (updateProfile fb uid sessionScore a).2 = navigated a.
Proof.
  unfold updateProfile. unfold_M.
  destruct (getDocRejects fb); [simpl; auto |].
  destruct (users a !! uid); [| simpl; auto].
  destruct (updateDocRejects fb); simpl; auto.
Qed.

Lemma handleComplete_some (fb : Firebase) (a : App) (s : QuizState) :
  quizState a = Some s ->
  (handleComplete fb a).1 = Ok tt /\
  quizState (handleComplete fb a).2 = Some s /\
  localStorage (handleComplete fb a).2 = None /\
  navigated (handleComplete fb a).2 =
    {| payload_score := score s; payload_total := len (questions s) |} :: navigated a.
Proof.
  intros Hs. unfold handleComplete. unfold_M. rewrite Hs.
  destruct (currentUser fb) as [uid|]; [| simpl; auto].
  destruct (updateProfile_frame fb uid (score s) a) as (H1 & H2 & H3 & H4).
  destruct (updateProfile fb uid (score s) a) as [[[]|e] a1]; simpl in *;
    [| discriminate].
  rewrite H2, H4. auto.
Qed.

Lemma handleComplete_quizState (fb : Firebase) (a : App) :
  quizState (handleComplete fb a).2 = quizState a.
Proof.
  destruct (quizState a) as [s|] eqn:Hs.
  - apply (handleComplete_some fb a s Hs).
  - unfold handleComplete. unfold_M. rewrite Hs. exact Hs.
Qed.

(** ** Invariants of a run *)

Lemma fresh_count (body : list Question) : correctCount (unanswered <$> body) = 0.
Proof.
  induction body as [|q body IH]; [reflexivity |].
  rewrite fmap_cons, correctCount_cons, IH. reflexivity.
Qed.

Lemma at_index_Some {A} (l : list A) (i : Z) (x : A) :
  at_index l i = Some x -> 0 <= i /\ l !! Z.to_nat i = Some x.
Proof.
  unfold at_index. destruct (0 <=? i) eqn:E; [| discriminate].
  apply Z.leb_le in E. auto.
Qed.

Lemma defined_false {A} (o : option A) : defined o = false -> o = None.
Proof. destruct o; [discriminate | reflexivity]. Qed.

Lemma dispatch_scoreIsCount (e : Event) (a : App) :
  scoreIsCount a -> scoreIsCount (dispatch e a).2.
Proof.
  intros Inv s'. destruct e as [requested response|index|fb|fb|]; simpl.
  - unfold resumeOrFetch, fetchQuestions. unfold_M.
    destruct (localStorage a) as [saved|]; [destruct (decide _) |];
      try destruct response; simpl; intros H; try (apply Inv; exact H);
      injection H as <-; simpl;
      first [apply recoveredScore_correctCount | symmetry; apply fresh_count].
  - unfold handleAnswer. unfold_M.
    destruct (quizState a) as [s|] eqn:Hs; [| simpl; rewrite Hs; discriminate].
    destruct (at_index (questions s) (currentQuestionIndex s)) as [q|] eqn:Hq;
      [| simpl; rewrite Hs; intros [= <-]; apply Inv, Hs].
    destruct (defined (userAnswer q)) eqn:Hd;
      simpl; rewrite ?Hs; intros [= <-]; [apply Inv, Hs |].
    apply at_index_Some in Hq as [_ Hq]. apply defined_false in Hd.
    simpl. rewrite (correctCount_answer _ _ q index Hq Hd), (Inv s Hs).
    destruct (index =? correctAnswer (base q)); lia.
  - unfold nextQuestion. unfold_M. simpl.
    destruct (quizState a) as [s|] eqn:Hs; [| simpl; rewrite ?Hs; discriminate].
    destruct (len (questions s) <=? currentQuestionIndex s + 1).
    + rewrite handleComplete_quizState. simpl. rewrite ?Hs. intros [= <-]. apply Inv, Hs.
    + simpl. intros [= <-]. simpl. apply Inv, Hs.
  - rewrite handleComplete_quizState. apply Inv.
  - unfold identificationButton. unfold_M. destruct (showExplanation a); simpl; apply Inv.
Qed.

Lemma run_cons (e : Event) (es : list Event) (a : App) :
  run (e :: es) a =
  match dispatch e a with
  | (Ok _, a') => run es a'
  | (Throw x, a') => (Throw x, a')
  end.
Proof. reflexivity. Qed.

Lemma run_cons_ok (e : Event) (es : list Event) (a : App) :
  (dispatch e a).1 = Ok tt -> run (e :: es) a = run es (dispatch e a).2.
Proof.
  intros H. rewrite run_cons.
  destruct (dispatch e a) as [[[]|x] a']; simpl in *; [reflexivity | discriminate H].
Qed.

Lemma run_scoreIsCount (es : list Event) (a : App) :
  scoreIsCount a -> scoreIsCount (run es a).2.
Proof.
  revert a. induction es as [|e es IH]; intros a Inv; [exact Inv |].
  rewrite run_cons. pose proof (dispatch_scoreIsCount e a Inv) as Inv'.
  destruct (dispatch e a) as [[u|x] a']; simpl in *; [apply IH |]; exact Inv'.
Qed.

Lemma noneSkipped_recover (s : QuizState) : noneSkipped s -> noneSkipped (recoverQuizState s).
Proof. intros H. exact H. Qed.

Lemma noneSkipped_fresh (body : list Question) (d : Difficulty) :
  noneSkipped {| questions := unanswered <$> body; currentQuestionIndex := 0;
                 score := 0; difficulty := d |}.
Proof. intros i Hi. simpl in Hi. lia. Qed.

Lemma noneSkipped_answer (s : QuizState) (q : AnsweredQuestion) (selected : Z) (c : bool) :
  noneSkipped s -> noneSkipped (answerUpdater q selected c s).
Proof.
  intros H i Hi. simpl in Hi. destruct (H i Hi) as (qi & Hqi & Hdef).
  exists qi. split; [| exact Hdef].
  unfold at_index in *. simpl. destruct (0 <=? i); [| discriminate].
  rewrite list_lookup_insert_ne; [exact Hqi | lia].
Qed.

Lemma noneSkipped_next (s : QuizState) (q : AnsweredQuestion) :
  noneSkipped s ->
  at_index (questions s) (currentQuestionIndex s) = Some q ->
  defined (userAnswer q) = true ->
  noneSkipped {| questions := questions s;
                 currentQuestionIndex := currentQuestionIndex s + 1;
                 score := score s; difficulty := difficulty s |}.
Proof.
  intros H Hq Hdef i Hi. simpl in *.
  destruct (decide (i = currentQuestionIndex s)) as [->|Hne].
  - exists q. split; [exact Hq |]. destruct (userAnswer q); [eauto | discriminate].
  - apply H. lia.
Qed.

Lemma handleComplete_localStorage (fb : Firebase) (a : App) :
  localStorage (handleComplete fb a).2 = None \/
  localStorage (handleComplete fb a).2 = localStorage a.
Proof.
  destruct (quizState a) as [s|] eqn:Hs.
  - left. apply (handleComplete_some fb a s Hs).
  - right. unfold handleComplete. unfold_M. rewrite Hs. reflexivity.
Qed.

Lemma dispatch_noneSkipped (e : Event) (a : App) :
  noneSkippedApp a ->
  match e with NextQuestion _ => currentAnswered a | _ => true end = true ->
  noneSkippedApp (dispatch e a).2.
Proof.
  intros Inv Hpre.
  destruct e as [requested response|index|fb|fb|]; simpl.
  - unfold resumeOrFetch, fetchQuestions. unfold_M.
    destruct (localStorage a) as [saved|] eqn:Hst; [destruct (decide _) |];
      try destruct response; simpl; split; intros s' H;
      try discriminate H; try (apply (proj1 Inv); exact H);
      injection H as <-;
      first [apply noneSkipped_recover, (proj2 Inv); exact Hst | apply noneSkipped_fresh].
  - unfold handleAnswer. unfold_M.
    destruct (quizState a) as [s|] eqn:Hs; [| exact Inv].
    destruct (at_index (questions s) (currentQuestionIndex s)) as [q|] eqn:Hq;
      [| exact Inv].
    destruct (defined (userAnswer q)) eqn:Hd; simpl; rewrite ?Hs;
      [split; simpl; [rewrite <- Hs |]; apply Inv |].
    split; intros s' [= <-]; apply noneSkipped_answer, (proj1 Inv), Hs.
  - unfold nextQuestion. unfold_M. simpl.
    unfold currentAnswered in Hpre.
    destruct (quizState a) as [s|] eqn:Hs;
      [| split; simpl; [rewrite ?Hs; intros s' [=] | exact (proj2 Inv)]].
    destruct (at_index (questions s) (currentQuestionIndex s)) as [q|] eqn:Hq; [| discriminate].
    destruct (len (questions s) <=? currentQuestionIndex s + 1).
    + split.
      * rewrite handleComplete_quizState. simpl. rewrite ?Hs. intros s' [= <-]. apply (proj1 Inv), Hs.
      * intros s' H. 
        match type of H with localStorage (handleComplete ?f ?b).2 = _ =>
          destruct (handleComplete_localStorage f b) as [E|E]; rewrite E in H end;
          [discriminate | apply (proj2 Inv), H].
    + simpl. split; intros s' [= <-]; exact (noneSkipped_next s q (proj1 Inv s Hs) Hq Hpre).
  - split.
    + rewrite handleComplete_quizState. exact (proj1 Inv).
    + intros s' H. destruct (handleComplete_localStorage fb a) as [E|E]; rewrite E in H;
        [discriminate | apply (proj2 Inv), H].
  - unfold identificationButton. unfold_M. destruct (showExplanation a); simpl; split; apply Inv.
Qed.

Lemma run_noneSkipped (es : list Event) (a : App) :
  noneSkippedApp a -> advancesWhenAnswered es a = true -> noneSkippedApp (run es a).2.
Proof.
  revert a. induction es as [|e es IH]; intros a Inv Hadv; [exact Inv |].
  simpl in Hadv. apply andb_prop in Hadv as [Hpre Hrest].
  rewrite run_cons. pose proof (dispatch_noneSkipped e a Inv Hpre) as Inv'.
  destruct (dispatch e a) as [[u|x] a']; simpl in *; [apply IH; assumption | exact Inv'].
Qed.

(** ** The session invariants *)

(** C1. In every state a run of the component reaches (through the start
    effect, which resumes a stored snapshot or fetches a fresh list, and
    through answering and advancing), from whatever snapshot the slot held,
    the score equals the number of questions whose [userAnswer] is defined
    and equal to [correctAnswer]; this includes the state right after
    recovery. *)
Theorem score_counts_correct_answers
    (saved : option QuizState) (us : gmap string UserDoc)
    (es : list Event) (s : QuizState) :
  quizState (run es (initialApp saved us)).2 = Some s ->
  score s = correctCount (questions s).
Proof.
  apply run_scoreIsCount. intros s0 H. discriminate H.
Qed.

Lemma score_counts_correct_answers_witness :
  exists s,
    quizState (run [Start medium FetchRejected; ClickOption 1]
                 (initialApp (Some staleSnapshot) sampleUsers)).2 = Some s /\
    score s = 2 /\
    score s = correctCount (questions s).
Proof.
  eexists. split; [reflexivity |]. split; [reflexivity |].
  apply (score_counts_correct_answers (Some staleSnapshot) sampleUsers
           [Start medium FetchRejected; ClickOption 1]).
  reflexivity.
Defined.

(** C9. In every state reached by a run that advances only when the
    current question is answered, started on an empty slot or on a snapshot
    that skips no question, every index below [currentQuestionIndex] holds
    a question whose [userAnswer] is defined. *)
Theorem no_question_skipped
    (saved : option QuizState) (us : gmap string UserDoc)
    (es : list Event) (s : QuizState) :
  (forall s0, saved = Some s0 -> noneSkipped s0) ->
  advancesWhenAnswered es (initialApp saved us) = true ->
  quizState (run es (initialApp saved us)).2 = Some s ->
  forall i, 0 <= i < currentQuestionIndex s ->
    exists q, at_index (questions s) i = Some q /\ is_Some (userAnswer q).
Proof.
  intros Hsaved Hadv Hs.
  assert (noneSkippedApp (initialApp saved us)) as Inv.
  { split; [intros s0 H; discriminate H | exact Hsaved]. }
  exact (proj1 (run_noneSkipped es _ Inv Hadv) s Hs).
Qed.

Lemma no_question_skipped_witness :
  exists s,
    quizState (run twoQuestionRun (initialApp None sampleUsers)).2 = Some s /\
    currentQuestionIndex s = 1 /\
    forall i, 0 <= i < currentQuestionIndex s ->
      exists q, at_index (questions s) i = Some q /\ is_Some (userAnswer q).
Proof.
  eexists. split; [reflexivity |]. split; [reflexivity |].
  apply (no_question_skipped None sampleUsers twoQuestionRun).
  - intros s0 H. discriminate H.
  - reflexivity.
  - reflexivity.
Defined.

(** ** Recovery *)

Lemma tierName_eqb (d1 d2 : Difficulty) :
  String.eqb (JS.tierName d1) (JS.tierName d2) = bool_decide (d1 = d2).
Proof. destruct d1, d2; reflexivity. Qed.

Lemma countQuestion_encode (acc : Z) (q : AnsweredQuestion) :
  JS.countQuestion acc (JS.encodeQuestion q)
  = Ok (if strictEq (userAnswer q) (correctAnswer (base q)) then acc + 1 else acc).
Proof.
  destruct q as [[id d t o c e] [u|]]; destruct id; reflexivity.
Qed.

Lemma reduce_cons (question : JS.value) (rest : list JS.value) (acc : Z) :
  JS.reduce (question :: rest) acc =
  match JS.countQuestion acc question with
  | Ok score' => JS.reduce rest score'
  | Throw e => Throw e
  end.
Proof. reflexivity. Qed.

Lemma reduce_encode (qs : list AnsweredQuestion) (acc : Z) :
  JS.reduce (JS.encodeQuestion <$> qs) acc = Ok (acc + correctCount qs).
Proof.
  revert acc. induction qs as [|q qs IH]; intros acc.
  - simpl. rewrite correctCount_nil. f_equal. lia.
  - rewrite fmap_cons, reduce_cons, countQuestion_encode, IH.
    rewrite correctCount_cons.
    destruct (strictEq (userAnswer q) (correctAnswer (base q))); f_equal; lia.
Qed.

(** On the serialisation of a state of the declared type, the untyped
    [recoverQuizState] is the typed one. *)
Lemma recover_encode (s : QuizState) :
  JS.recoverQuizState (JS.encode s) = Ok (JS.encode (recoverQuizState s)).
Proof.
  unfold JS.recoverQuizState, JS.encode.
  set (elems := JS.encodeQuestion <$> questions s).
  simpl. subst elems.
  rewrite reduce_encode. simpl. rewrite recoveredScore_correctCount. reflexivity.
Qed.

Lemma resumeOrFetch_encode (s : QuizState) (requested : Difficulty) :
  JS.resumeOrFetch (Some (JS.Json (JS.encode s))) requested
  = Ok (if decide (difficulty s = requested)
        then JS.Resume (JS.encode (recoverQuizState s))
        else JS.FetchFresh).
Proof.
  unfold JS.resumeOrFetch.
  change (JS.get (JS.encode s) "difficulty")
    with (Ok (A := option JS.value) (Some (JS.Str (JS.tierName (difficulty s))))).
  cbv beta iota. unfold JS.strictEquals. rewrite tierName_eqb, recover_encode.
  case_bool_decide as Hd; [rewrite decide_True | rewrite decide_False];
    first [reflexivity | exact Hd].
Qed.

Lemma resumeOrFetch_match (a : App) (snap : QuizState) (response : Response) :
  localStorage a = Some snap ->
  resumeOrFetch (difficulty snap) response a
  = setQuizState (recoverQuizState snap) a.
Proof.
  intros H. unfold resumeOrFetch. unfold bind at 1. unfold gets at 1. rewrite H.
  rewrite decide_True by reflexivity. reflexivity.
Qed.

Lemma setQuizState_result (s : QuizState) (a : App) :
  (setQuizState s a).1 = Ok tt /\
  quizState (setQuizState s a).2 = Some s /\
  localStorage (setQuizState s a).2 = Some s.
Proof. repeat split. Qed.

(** C2. For a stored snapshot of the requested tier, the start effect
    resumes it with the score recomputed from the [userAnswer] fields
    alone: the recovered score is the number of correct answers, whatever
    score the snapshot carried; a snapshot with answers
    [correct, wrong, undefined] recovers with score 1. *)
Theorem recover_recomputes_score
    (a : App) (snap : QuizState) (stale : Z) (response : Response) :
  localStorage a = Some (withScore stale snap) ->
  quizState (resumeOrFetch (difficulty snap) response a).2
    = Some (recoverQuizState snap) /\
  score (recoverQuizState snap) = correctCount (questions snap) /\
  (forall q1 q2 q3 wrong,
      wrong <> correctAnswer q2 ->
      questions snap = [ {| base := q1; userAnswer := Some (correctAnswer q1) |};
                         {| base := q2; userAnswer := Some wrong |};
                         {| base := q3; userAnswer := None |} ] ->
      score (recoverQuizState snap) = 1).
Proof.
  intros H. split; [| split].
  - change (difficulty snap) with (difficulty (withScore stale snap)).
    rewrite (resumeOrFetch_match a _ response H). reflexivity.
  - apply recoveredScore_correctCount.
  - intros q1 q2 q3 wrong Hw Hqs. simpl. rewrite Hqs.
    unfold recoveredScore. simpl. rewrite Z.eqb_refl.
    destruct (wrong =? correctAnswer q2) eqn:E; [| reflexivity].
    apply Z.eqb_eq in E. contradiction.
Qed.

Lemma recover_recomputes_score_witness :
  quizState (resumeOrFetch medium FetchRejected
               (initialApp (Some staleSnapshot) sampleUsers)).2
    = Some (recoverQuizState (withScore 0 staleSnapshot)) /\
  score (recoverQuizState (withScore 0 staleSnapshot)) = 1.
Proof.
  destruct (recover_recomputes_score
              (initialApp (Some staleSnapshot) sampleUsers)
              (withScore 0 staleSnapshot) 7 FetchRejected eq_refl)
    as (H1 & _ & H3).
  split; [exact H1 |].
  apply (H3 (sampleQuestion 0) (sampleQuestion 2) (sampleQuestion 1) 1);
    [discriminate | reflexivity].
Defined.

(** C10. For a stored snapshot of the requested tier, recovery replaces the
    score and nothing else: the question list with every [userAnswer], the
    current index and the difficulty of the resumed session are those of
    the snapshot, on the declared type and on the parsed text alike. *)
Theorem recover_keeps_frame
    (a : App) (snap : QuizState) (response : Response) :
  localStorage a = Some snap ->
  exists s,
    quizState (resumeOrFetch (difficulty snap) response a).2 = Some s /\
    questions s = questions snap /\
    currentQuestionIndex s = currentQuestionIndex snap /\
    difficulty s = difficulty snap /\
    JS.resumeOrFetch (Some (JS.Json (JS.encode snap))) (difficulty snap)
      = Ok (JS.Resume (JS.encode s)).
Proof.
  intros H. exists (recoverQuizState snap).
  rewrite (resumeOrFetch_match a snap response H).
  rewrite resumeOrFetch_encode, decide_True by reflexivity.
  repeat split.
Qed.

Lemma recover_keeps_frame_witness :
  exists s,
    quizState (resumeOrFetch medium FetchRejected
                 (initialApp (Some staleSnapshot) sampleUsers)).2 = Some s /\
    questions s = questions staleSnapshot /\
    currentQuestionIndex s = 2 /\
    difficulty s = medium /\
    JS.resumeOrFetch (Some (JS.Json (JS.encode staleSnapshot))) medium
      = Ok (JS.Resume (JS.encode s)).
Proof.
  apply (recover_keeps_frame (initialApp (Some staleSnapshot) sampleUsers)
           staleSnapshot FetchRejected).
  reflexivity.
Defined.

(** ** Answering *)

(** C3. When the current question already has a [userAnswer],
    [handleAnswer] with any index only logs that the question is answered:
    it raises nothing and leaves the session, hence the recorded answer and
    the score, and the stored snapshot as they were. *)
Theorem answer_again_is_noop
    (a : App) (s : QuizState) (q : AnsweredQuestion) (selectedAnswer : Z) :
  quizState a = Some s ->
  at_index (questions s) (currentQuestionIndex s) = Some q ->
  is_Some (userAnswer q) ->
  handleAnswer selectedAnswer a = console_log AlreadyAnswered a /\
  (handleAnswer selectedAnswer a).1 = Ok tt /\
  quizState (handleAnswer selectedAnswer a).2 = Some s /\
  localStorage (handleAnswer selectedAnswer a).2 = localStorage a.
Proof.
  intros Hs Hq [u Hu].
  assert (handleAnswer selectedAnswer a = console_log AlreadyAnswered a) as E.
  { unfold handleAnswer. unfold bind at 1. unfold gets at 1.
    rewrite Hs, Hq, Hu. reflexivity. }
  rewrite E. repeat split. exact Hs.
Qed.

Lemma answer_again_is_noop_witness :
  let a1 := (run [Start medium (ResponseOk sampleBody); ClickOption 0]
               (initialApp None sampleUsers)).2 in
  exists s,
    quizState a1 = Some s /\
    score s = 1 /\
    (handleAnswer 2 a1).1 = Ok tt /\
    quizState (handleAnswer 2 a1).2 = Some s.
Proof.
  intros a1. eexists. split; [reflexivity |]. split; [reflexivity |].
  destruct (answer_again_is_noop a1 _
              {| base := sampleQuestion 0; userAnswer := Some 0 |} 2
              eq_refl eq_refl (ex_intro _ 0 eq_refl))
    as (_ & H2 & H3 & _).
  split; [exact H2 | exact H3].
Defined.

(** ** Starting a session *)

Lemma resumeOrFetch_mismatch
    (a : App) (snap : QuizState) (requested : Difficulty) (response : Response) :
  localStorage a = Some snap ->
  difficulty snap <> requested ->
  resumeOrFetch requested response a
  = (localStorage_removeItem >> fetchQuestions requested response) a.
Proof.
  intros H Hne. unfold resumeOrFetch. unfold bind at 1. unfold gets at 1.
  rewrite H, decide_False by exact Hne. reflexivity.
Qed.

Lemma fetchQuestions_result
    (requested : Difficulty) (response : Response) (a : App) :
  (fetchQuestions requested response a).1 = Ok tt /\
  match response with
  | ResponseOk body =>
      quizState (fetchQuestions requested response a).2
        = Some (freshState requested body) /\
      localStorage (fetchQuestions requested response a).2
        = Some (freshState requested body) /\
      console (fetchQuestions requested response a).2 = console a
  | ResponseNotOk =>
      quizState (fetchQuestions requested response a).2 = quizState a /\
      localStorage (fetchQuestions requested response a).2 = localStorage a /\
      console (fetchQuestions requested response a).2 = FetchNotOk :: console a
  | FetchRejected =>
      quizState (fetchQuestions requested response a).2 = quizState a /\
      localStorage (fetchQuestions requested response a).2 = localStorage a /\
      console (fetchQuestions requested response a).2 = FetchThrew :: console a
  end.
Proof. destruct response; repeat split. Qed.

(** C6. For a stored snapshot whose tier is not the requested one, the
    start effect removes the snapshot from the slot and runs
    [fetchQuestions]; it does not recover the snapshot. The slot never
    holds the snapshot afterwards, a successful fetch installs the fresh
    session, and the decision is the same on the parsed text. *)
Theorem tier_mismatch_discards_snapshot
    (a : App) (snap : QuizState) (requested : Difficulty) (response : Response) :
  localStorage a = Some snap ->
  difficulty snap <> requested ->
  resumeOrFetch requested response a
    = (localStorage_removeItem >> fetchQuestions requested response) a /\
  localStorage (localStorage_removeItem a).2 = None /\
  localStorage (resumeOrFetch requested response a).2 <> Some snap /\
  (forall body, response = ResponseOk body ->
     quizState (resumeOrFetch requested response a).2
       = Some (freshState requested body)) /\
  JS.resumeOrFetch (Some (JS.Json (JS.encode snap))) requested = Ok JS.FetchFresh.
Proof.
  intros H Hne. rewrite (resumeOrFetch_mismatch a snap requested response H Hne).
  split; [reflexivity |]. split; [reflexivity |]. split; [| split].
  - destruct response; simpl; [| discriminate ..].
    intros [= E]. apply Hne. rewrite <- E. reflexivity.
  - intros body ->. reflexivity.
  - rewrite resumeOrFetch_encode, decide_False by exact Hne. reflexivity.
Qed.

Lemma tier_mismatch_discards_snapshot_witness :
  let a := initialApp (Some staleSnapshot) sampleUsers in
  resumeOrFetch hard (ResponseOk sampleBody) a
    = (localStorage_removeItem >> fetchQuestions hard (ResponseOk sampleBody)) a /\
  quizState (resumeOrFetch hard (ResponseOk sampleBody) a).2
    = Some (freshState hard sampleBody) /\
  JS.resumeOrFetch (Some (JS.Json (JS.encode staleSnapshot))) hard = Ok JS.FetchFresh.
Proof.
  intros a.
  destruct (tier_mismatch_discards_snapshot a staleSnapshot hard
              (ResponseOk sampleBody) eq_refl) as (H1 & _ & _ & H4 & H5).
  - discriminate.
  - split; [exact H1 |]. split; [exact (H4 sampleBody eq_refl) | exact H5].
Defined.

(** C5 (as the code has it). [fetchQuestions] constructs the session from
    whatever list a successful response carries, the empty list included:
    the session has the fetched questions, index 0 and score 0, and is what
    the component renders; a response that is not ok, or a rejected
    request, constructs no session. *)
Theorem fetch_constructs_session_from_any_list
    (requested : Difficulty) (response : Response) (a : App) :
  match response with
  | ResponseOk body =>
      quizState (fetchQuestions requested response a).2
        = Some (freshState requested body) /\
      render (fetchQuestions requested response a).2
        = QuizView 1 (len body) (at_index (unanswered <$> body) 0)
  | _ => quizState (fetchQuestions requested response a).2 = quizState a
  end.
Proof.
  destruct response as [body| |]; [| reflexivity ..].
  split; [reflexivity |].
  unfold render. simpl. unfold len. rewrite length_fmap. reflexivity.
Qed.

(** C5 as stated fails: on an empty list the start effect constructs a
    session with zero questions, persists it and renders it. *)
Lemma empty_question_list_session_constructed :
  let a := (resumeOrFetch easy (ResponseOk []) (initialApp None sampleUsers)).2 in
  quizState a = Some {| questions := []; currentQuestionIndex := 0;
                        score := 0; difficulty := easy |} /\
  localStorage a = quizState a /\
  render a = QuizView 1 0 None.
Proof. repeat split. Qed.

(** ** Completion *)

Lemma updateProfile_failure (fb : Firebase) (uid : string) (sessionScore : Z) (a : App) :
  getDocRejects fb = true \/ updateDocRejects fb = true ->
  updateProfile fb uid sessionScore a = console_log ScoreUpdateFailed a.
Proof.
  intros H. unfold updateProfile.
  destruct (getDocRejects fb); [reflexivity |].
  destruct H as [H|H]; [discriminate H |].
  unfold bind, gets. rewrite H. destruct (users a !! uid); reflexivity.
Qed.

Lemma updateProfile_success
    (fb : Firebase) (uid : string) (sessionScore : Z) (a : App) (d : UserDoc) :
  getDocRejects fb = false ->
  updateDocRejects fb = false ->
  users a !! uid = Some d ->
  updateProfile fb uid sessionScore a
  = putUsers (<[uid := {| totalGames := totalGames d + 1;
                          totalScore := totalScore d + sessionScore;
                          averageScore :=
                            (inject_Z (totalScore d + sessionScore)
                             / inject_Z (totalGames d + 1))%Q |}]> (users a)) a.
Proof.
  intros Hg Hu Hd. unfold updateProfile. rewrite Hg.
  unfold bind at 1. unfold gets at 1. rewrite Hd, Hu. reflexivity.
Qed.

Lemma handleComplete_signedIn (fb : Firebase) (a : App) (s : QuizState) (uid : string) :
  quizState a = Some s ->
  currentUser fb = Some uid ->
  handleComplete fb a
  = (updateProfile fb uid (score s) >>
     localStorage_removeItem >>
     navigate {| payload_score := score s;
                 payload_total := len (questions s) |}) a.
Proof.
  intros Hs Hu. unfold handleComplete. unfold bind at 1. unfold gets at 1.
  rewrite Hs, Hu. reflexivity.
Qed.

(** At the last question [nextQuestion] closes the modals and runs
    [handleComplete]. *)
Lemma nextQuestion_last (fb : Firebase) (a : App) (s : QuizState) :
  quizState a = Some s ->
  len (questions s) <= currentQuestionIndex s + 1 ->
  nextQuestion fb a
  = handleComplete fb ((setShowModal false >> setShowExplanation false) a).2.
Proof.
  intros Hs Hlast. apply Z.leb_le in Hlast.
  unfold nextQuestion. unfold_M. simpl. rewrite Hs, Hlast. reflexivity.
Qed.

(** C8. Whenever [handleComplete] runs on a session, whether or not a user
    is signed in and whether or not [getDoc] or [updateDoc] rejects, it
    raises nothing, removes the stored snapshot and navigates with
    [{score, total: questions.length}]; a rejection is logged and changes
    neither. The same holds when completion is reached through
    [nextQuestion] at the last question. *)
Theorem completion_clears_and_hands_off (fb : Firebase) (a : App) (s : QuizState) :
  quizState a = Some s ->
  ((handleComplete fb a).1 = Ok tt /\
   localStorage (handleComplete fb a).2 = None /\
   navigated (handleComplete fb a).2 =
     {| payload_score := score s; payload_total := len (questions s) |}
     :: navigated a) /\
  (forall uid,
     currentUser fb = Some uid ->
     getDocRejects fb = true \/ updateDocRejects fb = true ->
     console (handleComplete fb a).2 = ScoreUpdateFailed :: console a) /\
  (len (questions s) <= currentQuestionIndex s + 1 ->
   (nextQuestion fb a).1 = Ok tt /\
   localStorage (nextQuestion fb a).2 = None /\
   navigated (nextQuestion fb a).2 =
     {| payload_score := score s; payload_total := len (questions s) |}
     :: navigated a).
Proof.
  intros Hs. split; [| split].
  - destruct (handleComplete_some fb a s Hs) as (H1 & _ & H3 & H4). auto.
  - intros uid Hu Hrej.
    rewrite (handleComplete_signedIn fb a s uid Hs Hu).
    unfold bind at 1 2. rewrite (updateProfile_failure fb uid (score s) a Hrej).
    reflexivity.
  - intros Hlast. rewrite (nextQuestion_last fb a s Hs Hlast).
    match goal with |- context [handleComplete fb ?b] =>
      destruct (handleComplete_some fb b s Hs) as (H1 & _ & H3 & H4) end.
    auto.
Qed.

Lemma completion_clears_and_hands_off_witness :
  let fb := {| currentUser := Some "u1"; getDocRejects := false;
               updateDocRejects := true |} in
  localStorage lastQuestionAnswered <> None /\
  localStorage (handleComplete fb lastQuestionAnswered).2 = None /\
  navigated (handleComplete fb lastQuestionAnswered).2 =
    [{| payload_score := 1; payload_total := 1 |}] /\
  console (handleComplete fb lastQuestionAnswered).2 = [ScoreUpdateFailed].
Proof.
  intros fb.
  destruct (completion_clears_and_hands_off fb lastQuestionAnswered _ eq_refl)
    as ((_ & H2 & H3) & H4 & _).
  split; [discriminate |]. split; [exact H2 |]. split; [exact H3 |].
  exact (H4 "u1" eq_refl (or_intror eq_refl)).
Defined.

(** ** A stored text that is not a serialised session *)

Lemma countQuestion_not_null (acc : Z) (question : JS.value) :
  question <> JS.Null -> exists n, JS.countQuestion acc question = Ok n.
Proof.
  intros Hnn. unfold JS.countQuestion.
  destruct question; try (eexists; reflexivity). contradiction.
Qed.

Lemma reduce_not_null (elems : list JS.value) (acc : Z) :
  Forall (fun question => question <> JS.Null) elems ->
  exists n, JS.reduce elems acc = Ok n.
Proof.
  intros H. revert acc. induction H as [|question rest Hq _ IH]; intros acc.
  - exists acc. reflexivity.
  - rewrite reduce_cons.
    destruct (countQuestion_not_null acc question Hq) as [n ->]. apply IH.
Qed.

(** C7 (as the code has it). The start effect looks at the [difficulty]
    of the parsed text and at nothing else. A stored text, malformed or
    not, whose parsed [difficulty] is not the requested tier is discarded
    and the questions are fetched. A malformed text that carries the
    requested tier is handed to [recoverQuizState]; when its [questions]
    is an array without [null] it becomes the session, its own properties
    kept and [score] set to the recomputed count. *)
Theorem resume_decided_by_difficulty_only
    (parsed : JS.value) (requested : Difficulty) :
  (forall d,
     JS.get parsed "difficulty" = Ok d ->
     JS.strictEquals d (Some (JS.Str (JS.tierName requested))) = false ->
     JS.resumeOrFetch (Some (JS.Json parsed)) requested = Ok JS.FetchFresh) /\
  (forall props elems,
     parsed = JS.Obj props ->
     JS.lookupProp "difficulty" props = Some (JS.Str (JS.tierName requested)) ->
     JS.lookupProp "questions" props = Some (JS.Arr elems) ->
     Forall (fun question => question <> JS.Null) elems ->
     exists n,
       JS.reduce elems 0 = Ok n /\
       JS.resumeOrFetch (Some (JS.Json parsed)) requested
         = Ok (JS.Resume (JS.Obj (JS.setProp "score" (JS.Num n) props)))).
Proof.
  split.
  - intros d Hd Hne. unfold JS.resumeOrFetch. rewrite Hd, Hne. reflexivity.
  - intros props elems -> Hd Hq Hnn.
    destruct (reduce_not_null elems 0 Hnn) as [n Hn].
    exists n. split; [exact Hn |].
    unfold JS.resumeOrFetch, JS.get. rewrite Hd.
    unfold JS.strictEquals. rewrite String.eqb_refl.
    unfold JS.recoverQuizState. rewrite Hq, Hn. reflexivity.
Qed.

Lemma resume_decided_by_difficulty_only_witness :
  JS.resumeOrFetch (Some (JS.Json truncatedSnapshot)) hard = Ok JS.FetchFresh /\
  exists n,
    JS.reduce [] 0 = Ok n /\
    JS.resumeOrFetch (Some (JS.Json truncatedSnapshot)) easy
      = Ok (JS.Resume
              (JS.Obj (JS.setProp "score" (JS.Num n)
                         [("difficulty", JS.Str "easy");
                          ("questions", JS.Arr [])]))).
Proof.
  split.
  - apply (proj1 (resume_decided_by_difficulty_only truncatedSnapshot hard)
             (Some (JS.Str "easy"))); reflexivity.
  - apply (proj2 (resume_decided_by_difficulty_only truncatedSnapshot easy)
             [("difficulty", JS.Str "easy"); ("questions", JS.Arr [])] []);
      [reflexivity | reflexivity | reflexivity | constructor].
Defined.

(** C7 as stated fails: a stored text without [currentQuestionIndex] and
    [score] that carries the requested tier is not discarded but becomes
    the session; a text that does not parse, and one without [questions],
    make the effect throw instead of fetching. *)
Lemma malformed_snapshot_becomes_session :
  JS.resumeOrFetch (Some (JS.Json truncatedSnapshot)) easy
    = Ok (JS.Resume (JS.Obj [("difficulty", JS.Str "easy");
                             ("questions", JS.Arr []);
                             ("score", JS.Num 0)])) /\
  JS.resumeOrFetch (Some JS.NotJSON) easy = Throw SyntaxError /\
  JS.resumeOrFetch (Some (JS.Json (JS.Obj [("difficulty", JS.Str "easy")]))) easy
    = Throw TypeError.
Proof. repeat split. Qed.

(** ** The two-question scenario *)

(** Tier medium, two questions: a correct answer, advance, a wrong answer,
    advance. The score goes 1, 1; the result is [{score: 1, total: 2}] and
    the stored snapshot is gone. *)
Example two_question_scenario :
  let steps := fun n => (run (take n twoQuestionRun) (initialApp None sampleUsers)).2 in
  (score <$> quizState (steps 2%nat), isCorrect (steps 2%nat)) = (Some 1, true) /\
  currentQuestionIndex <$> quizState (steps 3%nat) = Some 1 /\
  (score <$> quizState (steps 4%nat), isCorrect (steps 4%nat)) = (Some 1, false) /\
  navigated (steps 5%nat) = [{| payload_score := 1; payload_total := 2 |}] /\
  localStorage (steps 5%nat) = None /\
  totalGames <$> users (steps 5%nat) !! "u1" = Some 1.
Proof. repeat split. Qed.

(** ** [handleAnswer] on an unanswered and on a missing question *)

Lemma handleAnswer_unanswered
    (selectedAnswer : Z) (a : App) (s : QuizState) (q : AnsweredQuestion) :
  quizState a = Some s ->
  at_index (questions s) (currentQuestionIndex s) = Some q ->
  userAnswer q = None ->
  handleAnswer selectedAnswer a
  = (setIsCorrect (selectedAnswer =? correctAnswer (base q)) >>
     setShowModal true >>
     setQuizState
       (answerUpdater q selectedAnswer
          (selectedAnswer =? correctAnswer (base q)) s)) a.
Proof.
  intros Hs Hq Hu. unfold handleAnswer. unfold bind at 1. unfold gets at 1.
  rewrite Hs, Hq, Hu. unfold_M. simpl. rewrite Hs. reflexivity.
Qed.

Lemma at_index_None {A} (l : list A) (i : Z) :
  at_index l i = None <-> i < 0 \/ len l <= i.
Proof.
  unfold at_index, len. destruct (0 <=? i) eqn:E.
  - apply Z.leb_le in E. rewrite lookup_ge_None. lia.
  - apply Z.leb_gt in E. split; [intros _; lia | reflexivity].
Qed.

Lemma at_index_insert_ne {A} (l : list A) (i j : Z) (x : A) :
  0 <= i -> j <> i -> at_index (<[Z.to_nat i := x]> l) j = at_index l j.
Proof.
  intros Hi Hne. unfold at_index. destruct (0 <=? j) eqn:E; [| reflexivity].
  apply Z.leb_le in E. apply list_lookup_insert_ne. lia.
Qed.

Lemma at_index_insert_eq {A} (l : list A) (i : Z) (x y : A) :
  at_index l i = Some y -> at_index (<[Z.to_nat i := x]> l) i = Some x.
Proof.
  intros H. apply at_index_Some in H as [Hi H]. unfold at_index.
  apply Z.leb_le in Hi. rewrite Hi.
  apply list_lookup_insert_eq. eapply lookup_lt_Some. exact H.
Qed.

(** X1. [handleAnswer] on an unanswered current question raises nothing and
    records the selection at the current index only: every other question,
    the length, the index and the tier are kept, the score grows by one
    exactly when the selection is the correct option, [isCorrect] says
    whether it was, the modal opens and the new session is persisted. *)
Theorem answer_records_selection
    (selectedAnswer : Z) (a : App) (s : QuizState) (q : AnsweredQuestion) :
  quizState a = Some s ->
  at_index (questions s) (currentQuestionIndex s) = Some q ->
  userAnswer q = None ->
  exists s',
    (handleAnswer selectedAnswer a).1 = Ok tt /\
    quizState (handleAnswer selectedAnswer a).2 = Some s' /\
    localStorage (handleAnswer selectedAnswer a).2 = Some s' /\
    at_index (questions s') (currentQuestionIndex s)
      = Some {| base := base q; userAnswer := Some selectedAnswer |} /\
    (forall j, j <> currentQuestionIndex s ->
       at_index (questions s') j = at_index (questions s) j) /\
    len (questions s') = len (questions s) /\
    currentQuestionIndex s' = currentQuestionIndex s /\
    difficulty s' = difficulty s /\
    score s' = score s
               + (if selectedAnswer =? correctAnswer (base q) then 1 else 0) /\
    isCorrect (handleAnswer selectedAnswer a).2
      = (selectedAnswer =? correctAnswer (base q)) /\
    showModal (handleAnswer selectedAnswer a).2 = true.
Proof.
  intros Hs Hq Hu.
  rewrite (handleAnswer_unanswered selectedAnswer a s q Hs Hq Hu).
  eexists. split; [reflexivity |]. split; [reflexivity |]. split; [reflexivity |].
  simpl. split; [exact (at_index_insert_eq _ _ _ q Hq) |].
  split; [intros j Hj; apply at_index_insert_ne;
          [apply (at_index_Some _ _ _ Hq) | exact Hj] |].
  split; [unfold len; rewrite length_insert; reflexivity |].
  repeat split.
  destruct (selectedAnswer =? correctAnswer (base q)); lia.
Qed.

Lemma handleAnswer_missing (selectedAnswer : Z) (a : App) (s : QuizState) :
  quizState a = Some s ->
  at_index (questions s) (currentQuestionIndex s) = None ->
  handleAnswer selectedAnswer a = (Throw TypeError, a).
Proof.
  intros Hs Hout. unfold handleAnswer. unfold bind at 1. unfold gets at 1.
  rewrite Hs, Hout. reflexivity.
Qed.

(** X2. When the current index points at no question (a negative index, an
    index past the end, or an empty question list), the component renders
    no current question and [handleAnswer] throws a [TypeError] without
    changing anything. *)
Theorem answer_without_question_throws
    (selectedAnswer : Z) (a : App) (s : QuizState) :
  quizState a = Some s ->
  currentQuestionIndex s < 0 \/ len (questions s) <= currentQuestionIndex s ->
  handleAnswer selectedAnswer a = (Throw TypeError, a) /\
  render a = QuizView (currentQuestionIndex s + 1) (len (questions s)) None.
Proof.
  intros Hs Hout. apply at_index_None in Hout.
  split; [exact (handleAnswer_missing selectedAnswer a s Hs Hout) |].
  unfold render. rewrite Hs, Hout. reflexivity.
Qed.

Lemma answer_again_noop_eq
    (selectedAnswer : Z) (a : App) (s : QuizState) (q : AnsweredQuestion) :
  quizState a = Some s ->
  at_index (questions s) (currentQuestionIndex s) = Some q ->
  is_Some (userAnswer q) ->
  handleAnswer selectedAnswer a = console_log AlreadyAnswered a /\
  quizState (console_log AlreadyAnswered a).2 = Some s.
Proof.
  intros Hs Hq [u Hu]. split; [| exact Hs].
  unfold handleAnswer. unfold bind at 1. unfold gets at 1.
  rewrite Hs, Hq, Hu. reflexivity.
Qed.

(** Before the last question [nextQuestion] closes the modals and moves to
    the next index. *)
Lemma nextQuestion_advance (fb : Firebase) (a : App) (s : QuizState) :
  quizState a = Some s ->
  len (questions s) > currentQuestionIndex s + 1 ->
  nextQuestion fb a
  = (setShowModal false >>
     setShowExplanation false >>
     setQuizState {| questions := questions s;
                     currentQuestionIndex := currentQuestionIndex s + 1;
                     score := score s;
                     difficulty := difficulty s |}) a.
Proof.
  intros Hs L. apply Z.gt_lt, Z.leb_gt in L.
  unfold nextQuestion. unfold_M. simpl. rewrite Hs, L. reflexivity.
Qed.

(** ** Within one session *)

Lemma progressOf_refl (s : QuizState) : progressOf s s.
Proof. repeat split; auto; lia. Qed.

Lemma progressOf_trans (s1 s2 s3 : QuizState) :
  progressOf s1 s2 -> progressOf s2 s3 -> progressOf s1 s3.
Proof.
  intros (B1 & A1 & D1 & I1 & S1) (B2 & A2 & D2 & I2 & S2).
  split; [congruence |]. split; [| split; [congruence | lia]].
  intros i q Hq Hans. apply A2; [apply A1; assumption | exact Hans].
Qed.

Lemma progressOf_answer
    (s : QuizState) (q : AnsweredQuestion) (selectedAnswer : Z) (c : bool) :
  at_index (questions s) (currentQuestionIndex s) = Some q ->
  userAnswer q = None ->
  progressOf s (answerUpdater q selectedAnswer c s).
Proof.
  intros Hq Hu. apply at_index_Some in Hq as [Hi Hq].
  split; [| split; [| split; [reflexivity | split; [simpl; lia |]]]].
  - simpl. rewrite list_fmap_insert. apply list_insert_id.
    rewrite list_lookup_fmap, Hq. reflexivity.
  - intros i q0 Hq0 [u Hans]. simpl.
    rewrite list_lookup_insert_ne; [exact Hq0 |].
    intros <-. rewrite Hq in Hq0. injection Hq0 as <-. congruence.
  - simpl. destruct c; lia.
Qed.

Lemma dispatch_progress (e : Event) (a : App) (s : QuizState) :
  isStart e = false ->
  quizState a = Some s ->
  exists s', quizState (dispatch e a).2 = Some s' /\ progressOf s s'.
Proof.
  intros Hns Hs. destruct e as [requested response|index|fb|fb|];
    [discriminate Hns | | | |]; simpl.
  - destruct (at_index (questions s) (currentQuestionIndex s)) as [q|] eqn:Hq.
    + destruct (userAnswer q) as [u|] eqn:Hu.
      * destruct (answer_again_noop_eq index a s q Hs Hq (ex_intro _ u Hu)) as [-> _].
        exists s. split; [exact Hs | apply progressOf_refl].
      * rewrite (handleAnswer_unanswered index a s q Hs Hq Hu).
        eexists. split; [reflexivity | apply progressOf_answer; assumption].
    + rewrite (handleAnswer_missing index a s Hs Hq).
      exists s. split; [exact Hs | apply progressOf_refl].
  - destruct (Z_le_gt_dec (len (questions s)) (currentQuestionIndex s + 1)) as [L|L].
    + rewrite (nextQuestion_last fb a s Hs L), handleComplete_quizState.
      exists s. split; [exact Hs | apply progressOf_refl].
    + rewrite (nextQuestion_advance fb a s Hs L).
      eexists. split; [reflexivity |]. repeat split; simpl; auto; lia.
  - rewrite handleComplete_quizState. exists s. split; [exact Hs | apply progressOf_refl].
  - exists s. split; [| apply progressOf_refl].
    unfold identificationButton. unfold_M. destruct (showExplanation a); exact Hs.
Qed.

Lemma handleAnswer_null (selectedAnswer : Z) (a : App) :
  quizState a = None -> handleAnswer selectedAnswer a = (Ok tt, a).
Proof.
  intros Hs. unfold handleAnswer. unfold bind at 1. unfold gets at 1.
  rewrite Hs. reflexivity.
Qed.

Lemma nextQuestion_null (fb : Firebase) (a : App) :
  quizState a = None ->
  nextQuestion fb a = (setShowModal false >> setShowExplanation false) a.
Proof. intros Hs. unfold nextQuestion. unfold_M. simpl. rewrite Hs. reflexivity. Qed.

Lemma handleComplete_null (fb : Firebase) (a : App) :
  quizState a = None -> handleComplete fb a = (Ok tt, a).
Proof. intros Hs. unfold handleComplete. unfold_M. rewrite Hs. reflexivity. Qed.

Lemma resumeOrFetch_cases (requested : Difficulty) (response : Response) (a : App) :
  (exists snap,
     localStorage a = Some snap /\ difficulty snap = requested /\
     resumeOrFetch requested response a = setQuizState (recoverQuizState snap) a)
  \/ resumeOrFetch requested response a
     = (localStorage_removeItem >> fetchQuestions requested response) a.
Proof.
  destruct (localStorage a) as [snap|] eqn:Hst.
  - destruct (decide (difficulty snap = requested)) as [E|E].
    + left. exists snap. split; [reflexivity |]. split; [exact E |].
      subst requested. apply resumeOrFetch_match. exact Hst.
    + right. apply (resumeOrFetch_mismatch a snap requested response Hst E).
  - right. unfold resumeOrFetch. unfold bind at 1. unfold gets at 1.
    rewrite Hst. reflexivity.
Qed.

(** ** The slot follows the session *)

Lemma resumeOrFetch_slotInSync (requested : Difficulty) (response : Response) (a : App) :
  slotInSync (resumeOrFetch requested response a).2.
Proof.
  destruct (resumeOrFetch_cases requested response a) as [(snap & _ & _ & ->)| ->].
  - right. reflexivity.
  - destruct response; [right | left | left]; reflexivity.
Qed.

Lemma dispatch_slotInSync (e : Event) (a : App) :
  slotInSync a -> slotInSync (dispatch e a).2.
Proof.
  intros Inv. destruct e as [requested response|index|fb|fb|]; simpl.
  - apply resumeOrFetch_slotInSync.
  - destruct (quizState a) as [s|] eqn:Hs;
      [| rewrite (handleAnswer_null index a Hs); exact Inv].
    destruct (at_index (questions s) (currentQuestionIndex s)) as [q|] eqn:Hq;
      [| rewrite (handleAnswer_missing index a s Hs Hq); exact Inv].
    destruct (userAnswer q) as [u|] eqn:Hu.
    + destruct (answer_again_noop_eq index a s q Hs Hq (ex_intro _ u Hu)) as [-> _].
      exact Inv.
    + rewrite (handleAnswer_unanswered index a s q Hs Hq Hu). right. reflexivity.
  - destruct (quizState a) as [s|] eqn:Hs;
      [| rewrite (nextQuestion_null fb a Hs); exact Inv].
    destruct (Z_le_gt_dec (len (questions s)) (currentQuestionIndex s + 1)) as [L|L].
    + rewrite (nextQuestion_last fb a s Hs L). left.
      apply (handleComplete_some fb _ s). exact Hs.
    + rewrite (nextQuestion_advance fb a s Hs L). right. reflexivity.
  - destruct (quizState a) as [s|] eqn:Hs;
      [| rewrite (handleComplete_null fb a Hs); exact Inv].
    left. apply (handleComplete_some fb a s Hs).
  - unfold identificationButton. unfold_M. destruct (showExplanation a); exact Inv.
Qed.

Lemma run_slotInSync (es : list Event) (a : App) :
  slotInSync a -> slotInSync (run es a).2.
Proof.
  revert a. induction es as [|e es IH]; intros a Inv; [exact Inv |].
  rewrite run_cons. pose proof (dispatch_slotInSync e a Inv) as Inv'.
  destruct (dispatch e a) as [[u|x] a']; simpl in *; [apply IH |]; exact Inv'.
Qed.

Lemma run_after_start_slotInSync
    (saved : option QuizState) (us : gmap string UserDoc)
    (requested : Difficulty) (response : Response) (es : list Event) :
  slotInSync (run (Start requested response :: es) (initialApp saved us)).2.
Proof.
  rewrite run_cons. simpl dispatch.
  pose proof (resumeOrFetch_slotInSync requested response (initialApp saved us))
    as Inv.
  destruct (resumeOrFetch requested response (initialApp saved us)) as [[u|x] a'];
    simpl in *; [apply run_slotInSync |]; exact Inv.
Qed.

Lemma recoverQuizState_id (s : QuizState) :
  score s = correctCount (questions s) -> recoverQuizState s = s.
Proof.
  intros H. destruct s as [qs i sc d]. unfold recoverQuizState. simpl in *.
  rewrite recoveredScore_correctCount, <- H. reflexivity.
Qed.

(** X3. After the start effect has run, whatever events follow, the slot
    is either empty or holds exactly the current session. *)
Theorem slot_holds_current_session
    (saved : option QuizState) (us : gmap string UserDoc)
    (requested : Difficulty) (response : Response) (es : list Event) :
  localStorage (run (Start requested response :: es) (initialApp saved us)).2 = None \/
  localStorage (run (Start requested response :: es) (initialApp saved us)).2
  = quizState (run (Start requested response :: es) (initialApp saved us)).2.
Proof. apply run_after_start_slotInSync. Qed.

(** X4. Reloading restores the session: whenever the slot holds a
    snapshot after a run, that snapshot is the current session, and a new
    component started on it with the same tier resumes exactly that
    session, score included; the untyped start effect does the same on its
    serialisation. *)
Theorem reload_restores_session
    (saved : option QuizState) (us us' : gmap string UserDoc)
    (requested : Difficulty) (response response' : Response)
    (es : list Event) (s : QuizState) :
  localStorage (run (Start requested response :: es) (initialApp saved us)).2 = Some s ->
  quizState (run (Start requested response :: es) (initialApp saved us)).2 = Some s /\
  quizState (resumeOrFetch (difficulty s) response' (initialApp (Some s) us')).2 = Some s /\
  JS.resumeOrFetch (Some (JS.Json (JS.encode s))) (difficulty s)
    = Ok (JS.Resume (JS.encode s)).
Proof.
  intros Hst.
  assert (quizState (run (Start requested response :: es) (initialApp saved us)).2
          = Some s) as Hs.
  { destruct (run_after_start_slotInSync saved us requested response es) as [E|E];
      rewrite E in Hst; [discriminate Hst | exact Hst]. }
  assert (recoverQuizState s = s) as Hid.
  { apply recoverQuizState_id.
    apply (run_scoreIsCount (Start requested response :: es) (initialApp saved us));
      [intros s0 H0; discriminate H0 | exact Hs]. }
  split; [exact Hs |]. split.
  - rewrite (resumeOrFetch_match (initialApp (Some s) us') s response' eq_refl).
    simpl. f_equal. exact Hid.
  - rewrite resumeOrFetch_encode, decide_True by reflexivity. rewrite Hid. reflexivity.
Qed.

Lemma reload_restores_session_witness :
  exists s,
    localStorage (run (Start medium (ResponseOk sampleBody)
                         :: [ClickOption 0; NextQuestion signedIn; ClickOption 1])
                    (initialApp None sampleUsers)).2 = Some s /\
    currentQuestionIndex s = 1 /\
    quizState (resumeOrFetch medium FetchRejected (initialApp (Some s) sampleUsers)).2
      = Some s.
Proof.
  eexists. split; [reflexivity |]. split; [reflexivity |].
  apply (reload_restores_session None sampleUsers sampleUsers medium
           (ResponseOk sampleBody) FetchRejected
           [ClickOption 0; NextQuestion signedIn; ClickOption 1] _ eq_refl).
Defined.

(** ** The index stays on a question *)

Lemma indexInRange_fresh (requested : Difficulty) (body : list Question) :
  body <> [] -> indexInRange (freshState requested body).
Proof.
  intros Hne. unfold indexInRange, len. simpl. rewrite length_fmap.
  destruct body; [contradiction | simpl; lia].
Qed.

Lemma indexInRange_at_index (s : QuizState) :
  indexInRange s -> exists q, at_index (questions s) (currentQuestionIndex s) = Some q.
Proof.
  intros H. destruct (at_index (questions s) (currentQuestionIndex s)) eqn:E; [eauto |].
  apply at_index_None in E. unfold indexInRange in H. lia.
Qed.

Lemma dispatch_indexInRange (e : Event) (a : App) :
  indexInRangeApp a ->
  bodiesNonEmpty [e] = true ->
  (dispatch e a).1 = Ok tt /\ indexInRangeApp (dispatch e a).2.
Proof.
  intros Inv Hne. destruct e as [requested response|index|fb|fb|]; simpl.
  - destruct (resumeOrFetch_cases requested response a)
      as [(snap & Hst & _ & ->)| ->].
    + split; [reflexivity |].
      split; intros s' [= <-]; exact (proj2 Inv snap Hst).
    + destruct response as [body| |]; (split; [reflexivity |]).
      * assert (body <> []) as Hb by (destruct body; [discriminate Hne | discriminate]).
        split; intros s' [= <-]; apply indexInRange_fresh, Hb.
      * split; [exact (proj1 Inv) | intros s' [=]].
      * split; [exact (proj1 Inv) | intros s' [=]].
  - destruct (quizState a) as [s|] eqn:Hs;
      [| rewrite (handleAnswer_null index a Hs); split; [reflexivity | exact Inv]].
    destruct (indexInRange_at_index s (proj1 Inv s Hs)) as [q Hq].
    destruct (userAnswer q) as [u|] eqn:Hu.
    + destruct (answer_again_noop_eq index a s q Hs Hq (ex_intro _ u Hu)) as [-> _].
      split; [reflexivity | exact Inv].
    + rewrite (handleAnswer_unanswered index a s q Hs Hq Hu).
      split; [reflexivity |].
      split; intros s' [= <-]; unfold indexInRange, len; simpl;
        rewrite length_insert; apply (proj1 Inv s Hs).
  - destruct (quizState a) as [s|] eqn:Hs;
      [| rewrite (nextQuestion_null fb a Hs); split; [reflexivity |];
         split; simpl; [rewrite Hs; intros s' [=] | exact (proj2 Inv)]].
    destruct (Z_le_gt_dec (len (questions s)) (currentQuestionIndex s + 1)) as [L|L].
    + rewrite (nextQuestion_last fb a s Hs L).
      match goal with |- context [handleComplete fb ?b] =>
        destruct (handleComplete_some fb b s Hs) as (H1 & H2 & H3 & _) end.
      split; [exact H1 |].
      split; intros s' H; [rewrite H2 in H | rewrite H3 in H; discriminate H].
      apply (proj1 Inv). rewrite Hs. exact H.
    + rewrite (nextQuestion_advance fb a s Hs L). split; [reflexivity |].
      pose proof (proj1 Inv s Hs) as [H0 _].
      split; intros s' [= <-]; unfold indexInRange; simpl; lia.
  - destruct (quizState a) as [s|] eqn:Hs;
      [| rewrite (handleComplete_null fb a Hs); split; [reflexivity | exact Inv]].
    destruct (handleComplete_some fb a s Hs) as (H1 & H2 & H3 & _).
    split; [exact H1 |].
    split; intros s' H; [rewrite H2 in H | rewrite H3 in H; discriminate H].
    apply (proj1 Inv). rewrite Hs. exact H.
  - unfold identificationButton. unfold_M.
    destruct (showExplanation a); (split; [reflexivity | exact Inv]).
Qed.

Lemma bodiesNonEmpty_cons (e : Event) (es : list Event) :
  bodiesNonEmpty (e :: es) = true ->
  bodiesNonEmpty [e] = true /\ bodiesNonEmpty es = true.
Proof.
  unfold bodiesNonEmpty. simpl. intros H. apply andb_prop in H as [H1 H2].
  rewrite H1. auto.
Qed.

Lemma run_indexInRange (es : list Event) (a : App) :
  indexInRangeApp a ->
  bodiesNonEmpty es = true ->
  (run es a).1 = Ok tt /\ indexInRangeApp (run es a).2.
Proof.
  revert a. induction es as [|e es IH]; intros a Inv Hne; [split; [reflexivity | exact Inv] |].
  apply bodiesNonEmpty_cons in Hne as [He Hes].
  destruct (dispatch_indexInRange e a Inv He) as [Hok Inv'].
  rewrite (run_cons_ok e es a Hok). apply IH; assumption.
Qed.

(** X5. Started on an empty slot, a run in which every successful response
    carries at least one question never throws, and its current index
    always points at a question. *)
Theorem run_never_throws_and_index_in_range
    (us : gmap string UserDoc) (es : list Event) :
  bodiesNonEmpty es = true ->
  (run es (initialApp None us)).1 = Ok tt /\
  forall s, quizState (run es (initialApp None us)).2 = Some s ->
    0 <= currentQuestionIndex s < len (questions s).
Proof.
  intros Hne.
  assert (indexInRangeApp (initialApp None us)) as Inv
    by (split; intros s H; discriminate H).
  destruct (run_indexInRange es _ Inv Hne) as [Hok Inv'].
  split; [exact Hok | exact (proj1 Inv')].
Qed.

Lemma run_never_throws_and_index_in_range_witness :
  (run twoQuestionRun (initialApp None sampleUsers)).1 = Ok tt /\
  forall s, quizState (run twoQuestionRun (initialApp None sampleUsers)).2 = Some s ->
    0 <= currentQuestionIndex s < len (questions s).
Proof.
  apply (run_never_throws_and_index_in_range sampleUsers twoQuestionRun).
  reflexivity.
Defined.

(** ** What is handed off and what reaches the profile *)

Lemma correctCount_bounds (qs : list AnsweredQuestion) :
  0 <= correctCount qs <= len qs.
Proof.
  unfold correctCount, len. split; [lia |].
  apply inj_le, length_filter.
Qed.

Lemma updateProfile_users (fb : Firebase) (uid : string) (sessionScore : Z) (a : App) :
  users (updateProfile fb uid sessionScore a).2 = users a \/
  exists d,
    getDocRejects fb = false /\ updateDocRejects fb = false /\
    users a !! uid = Some d /\
    users (updateProfile fb uid sessionScore a).2
      = <[uid := updatedDoc d sessionScore]> (users a).
Proof.
  destruct (getDocRejects fb) eqn:Hg;
    [left; rewrite updateProfile_failure by (left; exact Hg); reflexivity |].
  destruct (updateDocRejects fb) eqn:Hu;
    [left; rewrite updateProfile_failure by (right; exact Hu); reflexivity |].
  destruct (users a !! uid) as [d|] eqn:Hd.
  - right. exists d. rewrite (updateProfile_success fb uid sessionScore a d Hg Hu Hd).
    repeat split.
  - left. unfold updateProfile. rewrite Hg. unfold bind, gets. rewrite Hd. reflexivity.
Qed.

Lemma handleComplete_users (fb : Firebase) (a : App) (s : QuizState) :
  quizState a = Some s ->
  users (handleComplete fb a).2 = users a \/
  exists uid d,
    currentUser fb = Some uid /\ users a !! uid = Some d /\
    users (handleComplete fb a).2 = <[uid := updatedDoc d (score s)]> (users a).
Proof.
  intros Hs. destruct (currentUser fb) as [uid|] eqn:Hu.
  - rewrite (handleComplete_signedIn fb a s uid Hs Hu).
    destruct (updateProfile_users fb uid (score s) a) as [E|(d & _ & _ & Hd & E)].
    + left. rewrite <- E. unfold bind.
      destruct (updateProfile fb uid (score s) a) as [[[]|x] a1]; reflexivity.
    + right. exists uid, d. split; [reflexivity |]. split; [exact Hd |].
      rewrite <- E. unfold bind.
      destruct (updateProfile fb uid (score s) a) as [[[]|x] a1]; reflexivity.
  - left. unfold handleComplete. unfold_M. rewrite Hs, Hu. reflexivity.
Qed.

Lemma dispatch_effects (e : Event) (a : App) :
  (users (dispatch e a).2 = users a /\ navigated (dispatch e a).2 = navigated a) \/
  exists fb s,
    (e = ResultButton fb \/
     e = NextQuestion fb /\ len (questions s) <= currentQuestionIndex s + 1) /\
    quizState a = Some s /\
    navigated (dispatch e a).2
      = {| payload_score := score s; payload_total := len (questions s) |}
        :: navigated a /\
    (users (dispatch e a).2 = users a \/
     exists uid d,
       currentUser fb = Some uid /\ users a !! uid = Some d /\
       users (dispatch e a).2 = <[uid := updatedDoc d (score s)]> (users a)).
Proof.
  destruct e as [requested response|index|fb|fb|]; simpl.
  - left.
    destruct (resumeOrFetch_cases requested response a) as [(snap & _ & _ & ->)| ->];
      [| destruct response]; split; reflexivity.
  - left. destruct (quizState a) as [s|] eqn:Hs;
      [| rewrite (handleAnswer_null index a Hs); split; reflexivity].
    destruct (at_index (questions s) (currentQuestionIndex s)) as [q|] eqn:Hq;
      [| rewrite (handleAnswer_missing index a s Hs Hq); split; reflexivity].
    destruct (userAnswer q) as [u|] eqn:Hu.
    + destruct (answer_again_noop_eq index a s q Hs Hq (ex_intro _ u Hu)) as [-> _].
      split; reflexivity.
    + rewrite (handleAnswer_unanswered index a s q Hs Hq Hu). split; reflexivity.
  - destruct (quizState a) as [s|] eqn:Hs;
      [| left; rewrite (nextQuestion_null fb a Hs); split; reflexivity].
    destruct (Z_le_gt_dec (len (questions s)) (currentQuestionIndex s + 1)) as [L|L];
      [| left; rewrite (nextQuestion_advance fb a s Hs L); split; reflexivity].
    right. exists fb, s. split; [right; split; [reflexivity | exact L] |].
    split; [reflexivity |].
    rewrite (nextQuestion_last fb a s Hs L).
    set (closed := ((setShowModal false >> setShowExplanation false) a).2).
    split; [apply (handleComplete_some fb closed s Hs) |].
    exact (handleComplete_users fb closed s Hs).
  - destruct (quizState a) as [s|] eqn:Hs;
      [| left; rewrite (handleComplete_null fb a Hs); split; reflexivity].
    right. exists fb, s. split; [left; reflexivity |]. split; [reflexivity |].
    split; [apply (handleComplete_some fb a s Hs) |].
    exact (handleComplete_users fb a s Hs).
  - left. unfold identificationButton. unfold_M.
    destruct (showExplanation a); split; reflexivity.
Qed.

Lemma dispatch_payloadsBounded (e : Event) (a : App) :
  scoreIsCount a -> payloadsBounded a -> payloadsBounded (dispatch e a).2.
Proof.
  intros Hsc Hp. unfold payloadsBounded.
  destruct (dispatch_effects e a) as [[_ ->]|(fb & s & _ & Hs & -> & _)];
    [exact Hp |].
  constructor; [| exact Hp]. simpl. rewrite (Hsc s Hs). apply correctCount_bounds.
Qed.

Lemma run_payloadsBounded (es : list Event) (a : App) :
  scoreIsCount a -> payloadsBounded a -> payloadsBounded (run es a).2.
Proof.
  revert a. induction es as [|e es IH]; intros a Hsc Hp; [exact Hp |].
  rewrite run_cons.
  pose proof (dispatch_scoreIsCount e a Hsc) as Hsc'.
  pose proof (dispatch_payloadsBounded e a Hsc Hp) as Hp'.
  destruct (dispatch e a) as [[u|x] a']; simpl in *; [apply IH; assumption | exact Hp'].
Qed.

(** X6. Every result handed to the completion page, in any run from any
    stored snapshot, has a score between 0 and its total. *)
Theorem handed_off_score_within_total
    (saved : option QuizState) (us : gmap string UserDoc) (es : list Event)
    (p : ResultPayload) :
  p ∈ navigated (run es (initialApp saved us)).2 ->
  0 <= payload_score p <= payload_total p.
Proof.
  intros Hin.
  assert (payloadsBounded (run es (initialApp saved us)).2) as H.
  { apply run_payloadsBounded; [intros s Hs; discriminate Hs | constructor]. }
  unfold payloadsBounded in H. rewrite Forall_forall in H. apply H, Hin.
Qed.

Lemma handed_off_score_within_total_witness :
  {| payload_score := 1; payload_total := 2 |}
    ∈ navigated (run twoQuestionRun (initialApp None sampleUsers)).2 /\
  0 <= 1 <= 2.
Proof.
  assert ({| payload_score := 1; payload_total := 2 |}
            ∈ navigated (run twoQuestionRun (initialApp None sampleUsers)).2) as Hin
    by (vm_compute; apply list_elem_of_here).
  split; [exact Hin |].
  exact (handed_off_score_within_total None sampleUsers twoQuestionRun _ Hin).
Defined.

(** X7. An event changes the [users] collection only by completing a
    session (the result button, or [nextQuestion] at the last question) with
    a user signed in whose document exists: that one document gains one
    game and the session's score, every other document is untouched, and
    the same event navigates with the result. *)
Theorem profile_changes_only_on_completion (e : Event) (a : App) :
  users (dispatch e a).2 = users a \/
  exists fb s uid d,
    (e = ResultButton fb \/
     e = NextQuestion fb /\ len (questions s) <= currentQuestionIndex s + 1) /\
    quizState a = Some s /\
    currentUser fb = Some uid /\
    users a !! uid = Some d /\
    users (dispatch e a).2 !! uid = Some (updatedDoc d (score s)) /\
    (forall other, other <> uid ->
       users (dispatch e a).2 !! other = users a !! other) /\
    navigated (dispatch e a).2
      = {| payload_score := score s; payload_total := len (questions s) |}
        :: navigated a.
Proof.
  destruct (dispatch_effects e a) as [[E _]|(fb & s & He & Hs & Hn & [E|(uid & d & Hu & Hd & E)])];
    [left; exact E | left; exact E |].
  right. exists fb, s, uid, d. rewrite E.
  split; [exact He |]. split; [exact Hs |]. split; [exact Hu |]. split; [exact Hd |].
  split; [apply lookup_insert_eq |].
  split; [| exact Hn].
  intros other Hne. apply lookup_insert_ne. congruence.
Qed.

Lemma profile_changes_only_on_completion_witness :
  users (dispatch (ResultButton signedIn) lastQuestionAnswered).2 !! "u1"
    = Some (updatedDoc {| totalGames := 0; totalScore := 0; averageScore := 0%Q |} 1) /\
  users (dispatch (ClickOption 2) lastQuestionAnswered).2 = users lastQuestionAnswered.
Proof.
  split.
  - destruct (profile_changes_only_on_completion (ResultButton signedIn)
                lastQuestionAnswered)
      as [E|(fb & s & uid & d & He & Hs & Hu & Hd & Hl & _)].
    + apply (f_equal (fun m => totalGames <$> m !! "u1")) in E.
      vm_compute in E. discriminate E.
    + destruct He as [He|[He _]]; [injection He as <- | discriminate He].
      injection Hu as <-. injection Hs as <-.
      vm_compute in Hd. injection Hd as <-. exact Hl.
  - destruct (profile_changes_only_on_completion (ClickOption 2) lastQuestionAnswered)
      as [E|(fb & s & uid & d & [He|[He _]] & _)];
      [exact E | discriminate He | discriminate He].
Defined.

(** ** One session, from event to event *)

Lemma run_progress (es : list Event) (a : App) (s : QuizState) :
  withinSession es = true ->
  quizState a = Some s ->
  exists s', quizState (run es a).2 = Some s' /\ progressOf s s'.
Proof.
  revert a s. induction es as [|e es IH]; intros a s Hw Hs.
  - exists s. split; [exact Hs | apply progressOf_refl].
  - simpl in Hw. apply andb_prop in Hw as [He Hw]. apply negb_true_iff in He.
    destruct (dispatch_progress e a s He Hs) as (s1 & Hs1 & P1).
    rewrite run_cons.
    destruct (dispatch e a) as [[u|x] a1]; simpl in *.
    + destruct (IH a1 s1 Hw Hs1) as (s2 & Hs2 & P2).
      exists s2. split; [exact Hs2 | exact (progressOf_trans s s1 s2 P1 P2)].
    + exists s1. split; [exact Hs1 | exact P1].
Qed.

(** X8. Within one session (no start effect in between) the handlers never
    change a recorded answer, never reorder, add or drop a question, never
    change the tier, and never lower the index or the score. *)
Theorem answers_are_write_once
    (es : list Event) (a : App) (s : QuizState) :
  withinSession es = true ->
  quizState a = Some s ->
  exists s',
    quizState (run es a).2 = Some s' /\
    base <$> questions s' = base <$> questions s /\
    (forall i q, at_index (questions s) i = Some q -> is_Some (userAnswer q) ->
       at_index (questions s') i = Some q) /\
    difficulty s' = difficulty s /\
    currentQuestionIndex s <= currentQuestionIndex s' /\
    score s <= score s'.
Proof.
  intros Hw Hs. destruct (run_progress es a s Hw Hs) as (s' & Hs' & B & A & D & I & S).
  exists s'. split; [exact Hs' |]. split; [exact B |]. split; [| auto].
  intros i q Hq Hans. apply at_index_Some in Hq as [Hi Hq].
  unfold at_index. apply Z.leb_le in Hi. rewrite Hi. apply A; assumption.
Qed.

Lemma answers_are_write_once_witness :
  let a := (run [Start medium (ResponseOk sampleBody); ClickOption 0]
              (initialApp None sampleUsers)).2 in
  exists s',
    quizState (run [ClickOption 1; NextQuestion signedIn; ClickOption 1] a).2 = Some s' /\
    at_index (questions s') 0
      = Some {| base := sampleQuestion 0; userAnswer := Some 0 |}.
Proof.
  intros a.
  destruct (answers_are_write_once
              [ClickOption 1; NextQuestion signedIn; ClickOption 1] a _
              eq_refl eq_refl) as (s' & Hs' & _ & A & _).
  exists s'. split; [exact Hs' |].
  apply A; [reflexivity | simpl; eauto].
Defined.

(** ** Advancing before the last question *)

(** X9. Before the last question [nextQuestion] only moves on: index plus
    one, questions, score and tier kept, both modals closed, the new session
    persisted; it touches neither the profile nor the console and does not
    navigate. It does so whether or not the current question is answered. *)
Theorem advance_before_last_only_moves_index
    (fb : Firebase) (a : App) (s : QuizState) :
  quizState a = Some s ->
  currentQuestionIndex s + 1 < len (questions s) ->
  (nextQuestion fb a).1 = Ok tt /\
  quizState (nextQuestion fb a).2
    = Some {| questions := questions s;
              currentQuestionIndex := currentQuestionIndex s + 1;
              score := score s;
              difficulty := difficulty s |} /\
  localStorage (nextQuestion fb a).2 = quizState (nextQuestion fb a).2 /\
  showModal (nextQuestion fb a).2 = false /\
  showExplanation (nextQuestion fb a).2 = false /\
  users (nextQuestion fb a).2 = users a /\
  navigated (nextQuestion fb a).2 = navigated a /\
  console (nextQuestion fb a).2 = console a.
Proof.
  intros Hs L. rewrite (nextQuestion_advance fb a s Hs); [| lia]. repeat split.
Qed.

Lemma advance_before_last_only_moves_index_witness :
  let a := (run [Start medium (ResponseOk sampleBody)] (initialApp None sampleUsers)).2 in
  currentQuestionIndex <$> quizState (nextQuestion signedIn a).2 = Some 1 /\
  navigated (nextQuestion signedIn a).2 = [].
Proof.
  intros a.
  destruct (advance_before_last_only_moves_index signedIn a _ eq_refl)
    as (_ & H2 & _ & _ & _ & _ & H7 & _); [reflexivity |].
  split; [rewrite H2; reflexivity | exact H7].
Defined.

(** ** What the start effect installs *)

(** X10. The start effect never throws on a slot holding a serialised
    session. Either it installs a session of the requested tier whose score
    is the count of its correct answers and persists it, or (the fetch
    failed) it leaves the session as it was, leaves the slot empty and logs
    one entry. *)
Theorem start_installs_requested_tier
    (requested : Difficulty) (response : Response) (a : App) :
  (resumeOrFetch requested response a).1 = Ok tt /\
  ((exists s,
      quizState (resumeOrFetch requested response a).2 = Some s /\
      localStorage (resumeOrFetch requested response a).2 = Some s /\
      difficulty s = requested /\
      score s = correctCount (questions s)) \/
   (quizState (resumeOrFetch requested response a).2 = quizState a /\
    localStorage (resumeOrFetch requested response a).2 = None /\
    exists entry,
      console (resumeOrFetch requested response a).2 = entry :: console a)).
Proof.
  destruct (resumeOrFetch_cases requested response a) as [(snap & _ & Hd & ->)| ->].
  - split; [reflexivity |]. left. exists (recoverQuizState snap).
    repeat split; [exact Hd | apply recoveredScore_correctCount].
  - destruct response as [body| |]; (split; [reflexivity |]).
    + left. exists (freshState requested body). repeat split.
      simpl. symmetry. apply fresh_count.
    + right. repeat split. eexists. reflexivity.
    + right. repeat split. eexists. reflexivity.
Qed.

(** ** The explanation toggle *)

(** X11. [identificationButton] flips [showExplanation]; pressing it twice
    leaves the whole component as it was. *)
Theorem explanation_toggle_is_an_involution (a : App) :
  showExplanation (identificationButton a).2 = negb (showExplanation a) /\
  (identificationButton >> identificationButton) a = (Ok tt, a).
Proof.
  destruct a as [qs sm ic se ls co us nv].
  unfold identificationButton. unfold_M. destruct se; split; reflexivity.
Qed.

(** ** The colours of the option buttons *)

(** X12. Before the question is answered every option button is enabled
    and white. Once it is answered every button is disabled, a button is
    light green exactly when it is the correct option, and light coral
    exactly when it is the chosen option and that option is wrong. *)
Theorem option_colours (currentQuestion : AnsweredQuestion) (index : Z) :
  match userAnswer currentQuestion with
  | None =>
      optionDisabled currentQuestion = false /\
      backgroundColor currentQuestion index = white
  | Some chosen =>
      optionDisabled currentQuestion = true /\
      (backgroundColor currentQuestion index = lightgreen
       <-> index = correctAnswer (base currentQuestion)) /\
      (backgroundColor currentQuestion index = lightcoral
       <-> index = chosen /\ chosen <> correctAnswer (base currentQuestion))
  end.
Proof.
  unfold optionDisabled, backgroundColor.
  destruct (userAnswer currentQuestion) as [chosen|]; simpl; [| split; reflexivity].
  split; [reflexivity |].
  destruct (chosen =? index) eqn:E1;
    destruct (index =? correctAnswer (base currentQuestion)) eqn:E2;
    rewrite ?Z.eqb_eq, ?Z.eqb_neq in *;
    repeat split; intros; try discriminate; try lia.
Qed.

(** ** Recovery of an arbitrary parsed text *)

Lemma lookupProp_setProp_eq (key : string) (v : JS.value) (props : list (string * JS.value)) :
  JS.lookupProp key (JS.setProp key v props) = Some v.
Proof.
  induction props as [|[k old] rest IH]; simpl.
  - rewrite String.eqb_refl. reflexivity.
  - destruct (String.eqb k key) eqn:E; simpl; rewrite E; [reflexivity | exact IH].
Qed.

Lemma lookupProp_setProp_ne
    (key other : string) (v : JS.value) (props : list (string * JS.value)) :
  other <> key ->
  JS.lookupProp other (JS.setProp key v props) = JS.lookupProp other props.
Proof.
  intros Hne. induction props as [|[k old] rest IH]; simpl.
  - apply String.eqb_neq in Hne. rewrite String.eqb_sym, Hne. reflexivity.
  - destruct (String.eqb k key) eqn:E; simpl.
    + apply String.eqb_eq in E. subst k.
      assert (String.eqb key other = false) as ->
        by (apply String.eqb_neq; congruence).
      reflexivity.
    + destruct (String.eqb k other); [reflexivity | exact IH].
Qed.

Lemma setProp_setProp (key : string) (v w : JS.value) (props : list (string * JS.value)) :
  JS.setProp key w (JS.setProp key v props) = JS.setProp key w props.
Proof.
  induction props as [|[k old] rest IH]; simpl.
  - rewrite String.eqb_refl. reflexivity.
  - destruct (String.eqb k key) eqn:E; simpl; rewrite E; [reflexivity |].
    rewrite IH. reflexivity.
Qed.

Lemma countQuestion_Ok (acc n : Z) (question : JS.value) :
  JS.countQuestion acc question = Ok n ->
  question <> JS.Null /\ acc <= n <= acc + 1.
Proof.
  unfold JS.countQuestion. destruct question; simpl; try discriminate;
    intros [= <-]; (split; [discriminate |]);
    try match goal with |- context [if ?c then _ else _] => destruct c end; lia.
Qed.

Lemma reduce_Ok (elems : list JS.value) (acc n : Z) :
  JS.reduce elems acc = Ok n ->
  Forall (fun question => question <> JS.Null) elems /\ acc <= n <= acc + len elems.
Proof.
  revert acc. induction elems as [|question rest IH]; intros acc.
  - intros [= <-]. split; [constructor | unfold len; simpl; lia].
  - rewrite reduce_cons.
    destruct (JS.countQuestion acc question) as [m|x] eqn:E; [| discriminate].
    apply countQuestion_Ok in E as [Hnn Hm]. intros H. apply IH in H as [Hall Hn].
    split; [constructor; assumption |].
    unfold len in *. simpl length. lia.
Qed.

Lemma recover_Ok (savedState recovered : JS.value) :
  JS.recoverQuizState savedState = Ok recovered ->
  exists props elems n,
    savedState = JS.Obj props /\
    JS.lookupProp "questions" props = Some (JS.Arr elems) /\
    JS.reduce elems 0 = Ok n /\
    recovered = JS.Obj (JS.setProp "score" (JS.Num n) props).
Proof.
  unfold JS.recoverQuizState. destruct savedState as [| | | | |props]; try discriminate.
  destruct (JS.lookupProp "questions" props) as [[| | | |elems|]|] eqn:Hq; try discriminate.
  destruct (JS.reduce elems 0) as [n|x] eqn:Hn; [| discriminate].
  intros [= <-]. exists props, elems, n. auto.
Qed.

(** X13. On an arbitrary parsed text [recoverQuizState] succeeds exactly
    when the text is an object whose [questions] is an array without [null]
    entries; otherwise it throws, and what it throws is a [TypeError]. *)
Theorem recover_succeeds_exactly_on_question_arrays (savedState : JS.value) :
  ((exists recovered, JS.recoverQuizState savedState = Ok recovered) <->
   (exists props elems,
      savedState = JS.Obj props /\
      JS.lookupProp "questions" props = Some (JS.Arr elems) /\
      Forall (fun question => question <> JS.Null) elems)) /\
  (forall e, JS.recoverQuizState savedState = Throw e -> e = TypeError).
Proof.
  split; [split |].
  - intros [recovered H].
    apply recover_Ok in H as (props & elems & n & -> & Hq & Hn & _).
    exists props, elems. split; [reflexivity |]. split; [exact Hq |].
    apply (reduce_Ok elems 0 n Hn).
  - intros (props & elems & -> & Hq & Hall).
    destruct (reduce_not_null elems 0 Hall) as [n Hn].
    eexists. unfold JS.recoverQuizState. rewrite Hq, Hn. reflexivity.
  - unfold JS.recoverQuizState. intros e.
    destruct savedState as [| | | | |props]; try (intros [= <-]; reflexivity).
    destruct (JS.lookupProp "questions" props) as [[| | | |elems|]|];
      try (intros [= <-]; reflexivity).
    destruct (JS.reduce elems 0) as [n|x] eqn:Hn; [discriminate |].
    intros [= <-]. clear -Hn. revert Hn. generalize 0.
    induction elems as [|question rest IH]; intros acc; [discriminate |].
    rewrite reduce_cons.
    destruct (JS.countQuestion acc question) as [m|y] eqn:E; [apply IH |].
    intros [= <-]. unfold JS.countQuestion in E.
    destruct question; simpl in E; try discriminate E. injection E as <-. reflexivity.
Qed.

Lemma recover_succeeds_exactly_on_question_arrays_witness :
  (exists recovered, JS.recoverQuizState numbersSnapshot = Ok recovered) /\
  JS.recoverQuizState (JS.Arr []) = Throw TypeError.
Proof.
  destruct (recover_succeeds_exactly_on_question_arrays numbersSnapshot) as [[_ H] _].
  split.
  - apply H. eexists _, _. split; [reflexivity |]. split; [reflexivity |].
    repeat constructor; discriminate.
  - destruct (JS.recoverQuizState (JS.Arr [])) as [r|e] eqn:E; [discriminate E |].
    f_equal.
    exact (proj2 (recover_succeeds_exactly_on_question_arrays (JS.Arr [])) e E).
Defined.

(** X14. When [recoverQuizState] succeeds on a parsed text, the result has
    a numeric [score] between 0 and the number of questions, every other
    property is read as in the saved text, and recovering the result again
    returns it unchanged. *)
Theorem recovered_text_keeps_properties (savedState recovered : JS.value) :
  JS.recoverQuizState savedState = Ok recovered ->
  exists props elems n,
    savedState = JS.Obj props /\
    JS.lookupProp "questions" props = Some (JS.Arr elems) /\
    JS.get recovered "score" = Ok (Some (JS.Num n)) /\
    0 <= n <= len elems /\
    (forall key, key <> "score" ->
       JS.get recovered key = JS.get savedState key) /\
    JS.recoverQuizState recovered = Ok recovered.
Proof.
  intros H. apply recover_Ok in H as (props & elems & n & -> & Hq & Hn & ->).
  exists props, elems, n. split; [reflexivity |]. split; [exact Hq |].
  split; [simpl; rewrite lookupProp_setProp_eq; reflexivity |].
  split; [apply (reduce_Ok elems 0 n Hn) |].
  split; [intros key Hne; simpl; rewrite lookupProp_setProp_ne by exact Hne; reflexivity |].
  unfold JS.recoverQuizState.
  rewrite lookupProp_setProp_ne by discriminate.
  rewrite Hq, Hn, setProp_setProp. reflexivity.
Qed.

Lemma recovered_text_keeps_properties_witness :
  exists recovered,
    JS.recoverQuizState numbersSnapshot = Ok recovered /\
    JS.get recovered "score" = Ok (Some (JS.Num 2)) /\
    JS.recoverQuizState recovered = Ok recovered.
Proof.
  eexists. split; [reflexivity |].
  destruct (recovered_text_keeps_properties numbersSnapshot _ eq_refl)
    as (props & elems & n & _ & _ & _ & _ & _ & Hid).
  split; [reflexivity | exact Hid].
Defined.

Lemma strictEquals_Str (d : option JS.value) (t : string) :
  JS.strictEquals d (Some (JS.Str t)) = true -> d = Some (JS.Str t).
Proof.
  destruct d as [[| | |s| |]|]; simpl; try discriminate.
  intros H. apply String.eqb_eq in H. subst. reflexivity.
Qed.

(** X15. Whatever the slot holds, the start effect resumes only a parsed
    text whose [difficulty] is the requested tier, and the session it
    installs carries that tier. *)
Theorem resumed_text_has_requested_tier
    (savedState : option JS.Stored) (requested : Difficulty) (recovered : JS.value) :
  JS.resumeOrFetch savedState requested = Ok (JS.Resume recovered) ->
  exists parsed,
    savedState = Some (JS.Json parsed) /\
    JS.get parsed "difficulty" = Ok (Some (JS.Str (JS.tierName requested))) /\
    JS.get recovered "difficulty" = Ok (Some (JS.Str (JS.tierName requested))) /\
    JS.recoverQuizState parsed = Ok recovered.
Proof.
  unfold JS.resumeOrFetch. destruct savedState as [[| |parsed]|]; try discriminate.
  destruct (JS.get parsed "difficulty") as [d|x] eqn:Hd; [| discriminate].
  destruct (JS.strictEquals d (Some (JS.Str (JS.tierName requested)))) eqn:Heq;
    [| discriminate].
  apply strictEquals_Str in Heq. subst d.
  destruct (JS.recoverQuizState parsed) as [r|x] eqn:Hr; [| discriminate].
  intros [= <-]. exists parsed. split; [reflexivity |]. split; [exact Hd |].
  split; [| exact Hr].
  apply recover_Ok in Hr as (props & elems & n & -> & _ & _ & ->).
  simpl in *. rewrite lookupProp_setProp_ne by discriminate. exact Hd.
Qed.

Lemma resumed_text_has_requested_tier_witness :
  exists recovered,
    JS.resumeOrFetch (Some (JS.Json numbersSnapshot)) easy = Ok (JS.Resume recovered) /\
    JS.get recovered "difficulty" = Ok (Some (JS.Str "easy")).
Proof.
  eexists. split; [reflexivity |].
  destruct (resumed_text_has_requested_tier (Some (JS.Json numbersSnapshot)) easy _
              eq_refl) as (parsed & _ & _ & H & _).
  exact H.
Defined.

Lemma answer_records_selection_witness :
  let a := (run [Start medium (ResponseOk sampleBody)] (initialApp None sampleUsers)).2 in
  exists s',
    quizState (handleAnswer 1 a).2 = Some s' /\
    at_index (questions s') 0
      = Some {| base := sampleQuestion 0; userAnswer := Some 1 |} /\
    at_index (questions s') 1 = Some (unanswered (sampleQuestion 2)) /\
    score s' = 0 /\
    isCorrect (handleAnswer 1 a).2 = false.
Proof.
  intros a.
  destruct (answer_records_selection 1 a _ (unanswered (sampleQuestion 0))
              eq_refl eq_refl eq_refl)
    as (s' & _ & H2 & _ & H4 & H5 & _ & _ & _ & H9 & H10 & _).
  exists s'. split; [exact H2 |]. split; [exact H4 |].
  split; [rewrite H5 by discriminate; reflexivity |].
  split; [rewrite H9; reflexivity | exact H10].
Defined.

Lemma answer_without_question_throws_witness :
  let a := (run [Start easy (ResponseOk [])] (initialApp None sampleUsers)).2 in
  handleAnswer 0 a = (Throw TypeError, a) /\
  render a = QuizView 1 0 None.
Proof.
  intros a.
  apply (answer_without_question_throws 0 a (freshState easy []) eq_refl).
  right. unfold len. simpl. lia.
Defined.

Lemma option_colours_witness :
  let q := {| base := sampleQuestion 2; userAnswer := Some 1 |} in
  backgroundColor q 2 = lightgreen /\
  backgroundColor q 1 = lightcoral /\
  backgroundColor q 0 = white.
Proof.
  intros q.
  pose proof (option_colours q 2) as (_ & G & _).
  pose proof (option_colours q 1) as (_ & _ & C).
  split; [apply G; reflexivity |].
  split; [apply C; split; [reflexivity | discriminate] |].
  reflexivity.
Defined.

Lemma dispatch_users_dom (e : Event) (a : App) :
  dom (users (dispatch e a).2) = dom (users a).
Proof.
  destruct (dispatch_effects e a)
    as [[-> _]|(fb & s & _ & _ & _ & [->|(uid & d & _ & Hd & ->)])];
    [reflexivity | reflexivity |].
  rewrite dom_insert_L. apply subseteq_union_1_L.
  apply singleton_subseteq_l, elem_of_dom. eauto.
Qed.

(** X16. No run creates or removes a document of the [users] collection. *)
Theorem profile_documents_never_created_or_removed (es : list Event) (a : App) :
  dom (users (run es a).2) = dom (users a).
Proof.
  revert a. induction es as [|e es IH]; intros a; [reflexivity |].
  rewrite run_cons. pose proof (dispatch_users_dom e a) as H.
  destruct (dispatch e a) as [[u|x] a']; simpl in *; [rewrite IH |]; exact H.
Qed.

(** X17. When the index points at a question, the button the modal offers
    (result at the last question, next otherwise) completes the session
    exactly at the last question; before it, the button moves to an index
    that still points at a question and does not navigate. *)
Theorem modal_button_completes_exactly_at_last_question
    (fb : Firebase) (a : App) (s : QuizState) :
  quizState a = Some s ->
  0 <= currentQuestionIndex s < len (questions s) ->
  if isLastQuestion s
  then quizState (dispatch (modalPrimary s fb) a).2 = Some s /\
       localStorage (dispatch (modalPrimary s fb) a).2 = None /\
       navigated (dispatch (modalPrimary s fb) a).2
         = {| payload_score := score s; payload_total := len (questions s) |}
           :: navigated a
  else currentQuestionIndex <$> quizState (dispatch (modalPrimary s fb) a).2
         = Some (currentQuestionIndex s + 1) /\
       currentQuestionIndex s + 1 < len (questions s) /\
       navigated (dispatch (modalPrimary s fb) a).2 = navigated a.
Proof.
  intros Hs Hr. unfold modalPrimary, isLastQuestion.
  destruct (currentQuestionIndex s =? len (questions s) - 1) eqn:E; simpl.
  - destruct (handleComplete_some fb a s Hs) as (_ & H2 & H3 & H4). auto.
  - apply Z.eqb_neq in E.
    rewrite (nextQuestion_advance fb a s Hs) by lia.
    split; [reflexivity |]. split; [lia | reflexivity].
Qed.

Lemma modal_button_completes_exactly_at_last_question_witness :
  exists s,
    quizState lastQuestionAnswered = Some s /\
    modalPrimary s signedIn = ResultButton signedIn /\
    navigated (dispatch (modalPrimary s signedIn) lastQuestionAnswered).2
    = {| payload_score := 1; payload_total := 1 |} :: navigated lastQuestionAnswered.
Proof.
  eexists. split; [reflexivity |]. split; [reflexivity |].
  pose proof (modal_button_completes_exactly_at_last_question signedIn
                lastQuestionAnswered _ eq_refl) as H.
  simpl in H. apply H. unfold len. simpl. lia.
Defined.

(** ** Completion in flight *)


Lemma advance_last (user : option string) (l : Live) (s : QuizState) :
  mounted l = true ->
  quizState (app l) = Some s ->
  len (questions s) <= currentQuestionIndex s + 1 ->
  advance user l
  = beginComplete user
      (withApp ((setShowModal false >> setShowExplanation false) (app l)).2 l).
Proof.
  intros Hm Hs Hlast. apply Z.leb_le in Hlast.
  unfold advance. rewrite Hm.
  change (quizState ((setShowModal false >> setShowExplanation false) (app l)).2)
    with (quizState (app l)).
  rewrite Hs. cbv zeta. rewrite Hlast. reflexivity.
Qed.








(** The atomic [handleComplete] is the asynchronous one with its promises
    settled before anything else happens. *)
Lemma uninterrupted_advance_is_nextQuestion (fb : Firebase) (a : App) :
  app (runLive (currentUser fb) (Advance :: settledAtOnce fb) (mountedOn a))
  = (nextQuestion fb a).2.
Proof.
  simpl runLive.
  destruct (quizState a) as [s|] eqn:Hs.
  - destruct (Z_le_gt_dec (len (questions s)) (currentQuestionIndex s + 1)) as [L|L].
    + rewrite (nextQuestion_last fb a s Hs L).
      rewrite (advance_last (currentUser fb) (mountedOn a) s eq_refl Hs L).
      unfold settledAtOnce, beginComplete, handleComplete, updateProfile.
      unfold_M. simpl. rewrite Hs.
      destruct (currentUser fb) as [uid|]; [| reflexivity].
      destruct (getDocRejects fb); [reflexivity |].
      simpl. unfold settle. simpl.
      destruct (users a !! uid) as [d|] eqn:Hd; simpl;
        destruct (updateDocRejects fb); simpl; rewrite ?Hd; reflexivity.
    + rewrite (nextQuestion_advance fb a s Hs L).
      apply Z.gt_lt, Z.leb_gt in L.
      unfold advance. simpl. rewrite Hs, L.
      unfold settledAtOnce.
      destruct (currentUser fb); [destruct (getDocRejects fb) |]; reflexivity.
  - rewrite (nextQuestion_null fb a Hs).
    unfold advance. simpl. rewrite Hs. unfold settledAtOnce.
    destruct (currentUser fb); [destruct (getDocRejects fb) |]; reflexivity.
Qed.


